(** * A shallow embedding of the storage layer of [main.c]

    The development follows the C source function by function.

    Conventions of the embedding (LP64, little-endian, as the program is
    built on x86-64 Linux):
    - a byte is a [Z]; a buffer (a page, a row slot) is a [list Z];
    - an [int] is 4 bytes, a [ssize_t] 8 bytes, both two's complement;
    - a [void*] into a page is the offset from the start of the page, and
      pointer arithmetic is addition on offsets;
    - a call either returns, terminates the process with
      [exit(EXIT_FAILURE)], runs into undefined behaviour (an access
      outside the object), or, for a loop, runs out of the fuel it was given;
    - contents of a block returned by [malloc] are not chosen by the
      program: they are a parameter of the development. *)

From Stdlib Require Import ZArith Lia.
From stdpp Require Import base numbers option list.

Local Open Scope Z_scope.

(** ** Outcomes of a call *)

Inductive outcome (A : Type) : Type :=
| Returns (a : A)
| Exits
| Undefined
| OutOfFuel.

Arguments Returns {A} a.
Arguments Exits {A}.
Arguments Undefined {A}.
Arguments OutOfFuel {A}.

#[global] Instance outcome_ret : MRet outcome := fun A a => Returns a.

#[global] Instance outcome_bind : MBind outcome := fun A B k m =>
  match m with
  | Returns a => k a
  | Exits => Exits
  | Undefined => Undefined
  | OutOfFuel => OutOfFuel
  end.

(** ** Constants of the source *)

Definition COLUMN_USERNAME_SIZE : Z := 32.
Definition COLUMN_EMAIL_SIZE : Z := 255.
Definition TABLE_MAX_PAGES : Z := 100.

Definition SIZEOF_INT : Z := 4.
Definition SIZEOF_SSIZE_T : Z := 8.

Definition ID_OFFSET : Z := 0.
Definition ID_SIZE : Z := SIZEOF_SSIZE_T.
Definition USERNAME_SIZE : Z := COLUMN_USERNAME_SIZE + 1.
Definition USERNAME_OFFSET : Z := ID_OFFSET + ID_SIZE.
Definition EMAIL_SIZE : Z := COLUMN_EMAIL_SIZE + 1.
Definition EMAIL_OFFSET : Z := USERNAME_OFFSET + USERNAME_SIZE.
Definition ROW_SIZE : Z := ID_SIZE + USERNAME_SIZE + EMAIL_SIZE.

Definition PAGE_SIZE : Z := 4096.

Definition NODE_TYPE_SIZE : Z := SIZEOF_INT.
Definition NODE_TYPE_OFFSET : Z := 0.
Definition IS_ROOT_SIZE : Z := SIZEOF_INT.
Definition IS_ROOT_OFFSET : Z := NODE_TYPE_SIZE.
Definition PARENT_POINTER_SIZE : Z := SIZEOF_INT.
Definition PARENT_POINTER_OFFSET : Z := IS_ROOT_OFFSET + IS_ROOT_SIZE.
Definition COMMON_NODE_HEADER_SIZE : Z :=
  NODE_TYPE_SIZE + IS_ROOT_SIZE + PARENT_POINTER_SIZE.

Definition LEAF_NODE_NUM_CELLS_SIZE : Z := SIZEOF_INT.
Definition LEAF_NODE_NUM_CELLS_OFFSET : Z := COMMON_NODE_HEADER_SIZE.
Definition LEAF_NODE_HEADER_SIZE : Z :=
  COMMON_NODE_HEADER_SIZE + LEAF_NODE_NUM_CELLS_SIZE.

Definition LEAF_NODE_KEY_SIZE : Z := SIZEOF_INT.
Definition LEAF_NODE_KEY_OFFSET : Z := 0.
Definition LEAF_NODE_VALUE_SIZE : Z := ROW_SIZE.
Definition LEAF_NODE_VALUE_OFFSET : Z := LEAF_NODE_KEY_OFFSET + LEAF_NODE_KEY_SIZE.
Definition LEAF_NODE_CELL_SIZE : Z := LEAF_NODE_KEY_SIZE + LEAF_NODE_VALUE_SIZE.
Definition LEAF_NODE_SPACE_FOR_CELLS : Z := PAGE_SIZE - LEAF_NODE_HEADER_SIZE.
Definition LEAF_NODE_MAX_CELLS : Z :=
  LEAF_NODE_SPACE_FOR_CELLS `quot` LEAF_NODE_CELL_SIZE.

(** ** Memory: byte buffers, integers in memory *)

Definition in_bounds (mem : list Z) (off len : Z) : bool :=
  bool_decide (0 <= off) && bool_decide (0 <= len)
  && bool_decide (off + len <= Z.of_nat (length mem)).

(** Reading [len] bytes at [off]; outside the buffer the behaviour is
    undefined. *)
Definition load_bytes (mem : list Z) (off len : Z) : outcome (list Z) :=
  if in_bounds mem off len
  then Returns (take (Z.to_nat len) (drop (Z.to_nat off) mem))
  else Undefined.

(** Writing the bytes [bs] at [off]. *)
Definition store_bytes (mem : list Z) (off : Z) (bs : list Z) : outcome (list Z) :=
  if in_bounds mem off (Z.of_nat (length bs))
  then Returns (take (Z.to_nat off) mem ++ bs
                ++ drop (Z.to_nat off + length bs)%nat mem)
  else Undefined.

(** [memcpy(dest, src, n)] inside one buffer: the two regions must not
    overlap. *)
Definition memcpy (mem : list Z) (dest src n : Z) : outcome (list Z) :=
  if bool_decide (0 < n) && bool_decide (Z.abs (dest - src) < n)
  then Undefined
  else bs ← load_bytes mem src n; store_bytes mem dest bs.

(** Little-endian encoding of an integer on [n] bytes, and decoding. *)
Fixpoint encode_le (n : nat) (v : Z) : list Z :=
  match n with
  | O => []
  | S n' => v `mod` 256 :: encode_le n' (v `div` 256)
  end.

Fixpoint decode_le (bs : list Z) : Z :=
  match bs with
  | [] => 0
  | b :: bs' => b + 256 * decode_le bs'
  end.

(** The signed value of a [bits]-bit two's complement pattern; also the
    result of converting a wider integer to a [bits]-bit signed one. *)
Definition to_signed (bits : Z) (v : Z) : Z :=
  let m := v `mod` 2 ^ bits in
  if bool_decide (m < 2 ^ (bits - 1)) then m else m - 2 ^ bits.

(** Reading and writing an [int] through a pointer at offset [off]. *)
Definition load_int (mem : list Z) (off : Z) : outcome Z :=
  bs ← load_bytes mem off SIZEOF_INT; mret (to_signed 32 (decode_le bs)).

Definition store_int (mem : list Z) (off : Z) (v : Z) : outcome (list Z) :=
  store_bytes mem off (encode_le (Z.to_nat SIZEOF_INT) v).

(** ** Row codec *)

(** [username] and [email] are the [char] arrays of the struct, terminator
    and whatever follows it included. *)
Record Row : Type := {
  id : Z;
  username : list Z;
  email : list Z;
}.

(** The C string held by a [char] array: the bytes before the first NUL. *)
Fixpoint c_str (a : list Z) : list Z :=
  match a with
  | [] => []
  | c :: a' => if bool_decide (c = 0) then [] else c :: c_str a'
  end.

(** The [n] bytes that [strncpy(_, src, n)] writes: the characters of [src]
    up to its terminator, then NULs up to [n] bytes; it stops reading at the
    terminator or after [n] characters, and reading past the end of the
    source array is undefined. *)
Fixpoint strncpy_bytes (src : list Z) (n : nat) {struct n} : outcome (list Z) :=
  match n with
  | O => Returns []
  | S n' =>
      match src with
      | [] => Undefined
      | c :: src' =>
          if bool_decide (c = 0) then Returns (replicate n 0)
          else rest ← strncpy_bytes src' n'; mret (c :: rest)
      end
  end.

Definition strncpy (mem : list Z) (dest : Z) (src : list Z) (n : Z)
  : outcome (list Z) :=
  bs ← strncpy_bytes src (Z.to_nat n); store_bytes mem dest bs.

Definition serialize_row (source : Row) (mem : list Z) (destination : Z)
  : outcome (list Z) :=
  m1 ← store_bytes mem (destination + ID_OFFSET)
         (encode_le (Z.to_nat ID_SIZE) (id source));
  m2 ← strncpy m1 (destination + USERNAME_OFFSET) (username source) USERNAME_SIZE;
  strncpy m2 (destination + EMAIL_OFFSET) (email source) EMAIL_SIZE.

Definition deserialize_row (mem : list Z) (source : Z) : outcome Row :=
  i ← load_bytes mem (source + ID_OFFSET) ID_SIZE;
  u ← load_bytes mem (source + USERNAME_OFFSET) USERNAME_SIZE;
  e ← load_bytes mem (source + EMAIL_OFFSET) EMAIL_SIZE;
  mret {| id := to_signed 64 (decode_le i); username := u; email := e |}.

(** ** The backing file *)

(** The file behind the descriptor: its bytes, and whether the device
    fails the calls made on it ([lseek], [read] and [write] then return
    [-1]). *)
Record File : Type := {
  contents : list Z;
  io_error : bool;
}.

(** [lseek(fd, 0, SEEK_END)]. *)
Definition file_seek_end (f : File) : Z :=
  if io_error f then -1 else Z.of_nat (length (contents f)).

(** [lseek(fd, off, SEEK_SET)] followed by [read(fd, _, len)]: the bytes
    read ([None] for [-1]); fewer than [len] at the end of the file. *)
Definition file_read (f : File) (off len : Z) : option (list Z) :=
  if io_error f then None
  else Some (take (Z.to_nat len) (drop (Z.to_nat off) (contents f))).

(** [lseek(fd, off, SEEK_SET)] followed by [write(fd, bs, _)]; a write
    past the end leaves a hole of zeros. *)
Definition file_write (f : File) (off : Z) (bs : list Z) : option File :=
  if io_error f then None
  else
    let old := contents f in
    let padded := old ++ replicate (Z.to_nat off - length old) 0 in
    Some {| contents := take (Z.to_nat off) padded ++ bs
                        ++ drop (Z.to_nat off + length bs)%nat old;
            io_error := false |}.

(** ** Pager *)

Record Pager : Type := {
  file_descriptor : File;
  file_length : Z;
  num_pages : Z;
  pages : list (option (list Z));
}.

Definition set_num_pages (pager : Pager) (n : Z) : Pager :=
  {| file_descriptor := file_descriptor pager;
     file_length := file_length pager;
     num_pages := n;
     pages := pages pager |}.

Definition set_file (pager : Pager) (f : File) : Pager :=
  {| file_descriptor := f;
     file_length := file_length pager;
     num_pages := num_pages pager;
     pages := pages pager |}.

(** The rvalue [pager->pages[page_num]]: the array has [TABLE_MAX_PAGES]
    elements, and an index outside it is undefined behaviour. [None] is the
    [NULL] pointer, [Some page] a pointer to a resident page. *)
Definition pages_at (pager : Pager) (page_num : Z) : outcome (option (list Z)) :=
  if bool_decide (0 <= page_num < TABLE_MAX_PAGES)
  then Returns (default None (pages pager !! Z.to_nat page_num))
  else Undefined.

(** The assignment [pager->pages[page_num] = page], and also a write
    through a pointer that [get_page] returned: callers mutate the resident
    page in place. *)
Definition set_page (pager : Pager) (page_num : Z) (page : list Z) : Pager :=
  {| file_descriptor := file_descriptor pager;
     file_length := file_length pager;
     num_pages := num_pages pager;
     pages := <[Z.to_nat page_num := Some page]> (pages pager) |}.

(** [f] is the result of [open]: [None] when it returned [-1]. *)
Definition pager_open (f : option File) : outcome Pager :=
  match f with
  | None => Exits
  | Some fd =>
      let file_length_ := file_seek_end fd in
      if bool_decide (file_length_ `rem` PAGE_SIZE ≠ 0) then Exits
      else
        Returns {| file_descriptor := fd;
                   file_length := to_signed 32 file_length_;
                   num_pages := to_signed 32 (file_length_ `quot` PAGE_SIZE);
                   pages := replicate (Z.to_nat TABLE_MAX_PAGES) None |}
  end.

Inductive NodeType : Type := NODE_INTERNAL | NODE_LEAF.

Definition NodeType_value (t : NodeType) : Z :=
  match t with NODE_INTERNAL => 0 | NODE_LEAF => 1 end.

(** Node accessors: each returns the offset, from the start of the node, of
    the place the C function points to. *)
Definition leaf_node_cell (cell_num : Z) : Z :=
  LEAF_NODE_HEADER_SIZE + cell_num + LEAF_NODE_CELL_SIZE.

Definition leaf_node_num_cells : Z := LEAF_NODE_NUM_CELLS_OFFSET.

Definition leaf_node_key (cell_num : Z) : Z := leaf_node_cell cell_num.

Definition leaf_node_value (cell_num : Z) : Z :=
  leaf_node_cell cell_num + LEAF_NODE_KEY_SIZE.

Definition set_node_type (node : list Z) (type : NodeType) : outcome (list Z) :=
  store_int node NODE_TYPE_OFFSET (NodeType_value type).

(** The cast to [NodeType] keeps the integer. *)
Definition get_node_type (node : list Z) : outcome Z :=
  load_int node NODE_TYPE_OFFSET.

Definition initialize_leaf_node (node : list Z) : outcome (list Z) :=
  node1 ← set_node_type node NODE_LEAF;
  store_int node1 leaf_node_num_cells 0.

(** [num_rows] is never assigned by the program. *)
Record Table : Type := {
  num_rows : option Z;
  pager : Pager;
  root_page_num : Z;
}.

Definition set_pager (table : Table) (p : Pager) : Table :=
  {| num_rows := num_rows table; pager := p;
     root_page_num := root_page_num table |}.

(** The [table] pointer of the C struct is passed along explicitly;
    [row_num] is never read or written. A field that was not assigned since
    [malloc] is [None]. *)
Record Cursor : Type := {
  page_num : Z;
  cell_num : Z;
  end_of_table : option bool;
}.

Inductive StatementType : Type := STATEMENT_INSERT | STATEMENT_SELECT.

Record Statement : Type := {
  type : StatementType;
  row_to_insert : Row;
}.

Inductive ExecuteResult : Type :=
| EXECUTE_SUCCESS
| EXECUTE_DUPLICATE_KEY
| EXECUTE_TABLE_FULL.

Section Engine.

(** [malloc_page n] is the content of the block that [malloc(PAGE_SIZE)]
    hands out when page [n] is loaded (a page is loaded at most once: the
    cache never evicts). *)
Variable malloc_page : Z -> list Z.

Definition get_page (pager : Pager) (page_num : Z) : outcome (list Z * Pager) :=
  if bool_decide (page_num > TABLE_MAX_PAGES) then Exits
  else
    slot ← pages_at pager page_num;
    match slot with
    | Some page => Returns (page, pager)
    | None =>
        let page := malloc_page page_num in
        let num_pages0 := file_length pager `quot` PAGE_SIZE in
        let num_pages_ :=
          if bool_decide (file_length pager `rem` PAGE_SIZE ≠ 0)
          then num_pages0 + 1 else num_pages0 in
        page' ← (if bool_decide (page_num <= num_pages_)
                 then match file_read (file_descriptor pager)
                                      (page_num * PAGE_SIZE) PAGE_SIZE with
                      | None => Exits
                      | Some bs => Returns (bs ++ drop (length bs) page)
                      end
                 else Returns page);
        let pager1 := set_page pager page_num page' in
        let pager2 :=
          if bool_decide (page_num >= num_pages pager1)
          then set_num_pages pager1 (page_num + 1) else pager1 in
        Returns (page', pager2)
    end.

Definition pager_flush (pager : Pager) (page_num : Z) : outcome Pager :=
  slot ← pages_at pager page_num;
  match slot with
  | None => Exits
  | Some page =>
      match file_write (file_descriptor pager) (page_num * PAGE_SIZE) page with
      | None => Exits
      | Some f' => Returns (set_file pager f')
      end
  end.

Definition db_open (f : option File) : outcome Table :=
  pager_ ← pager_open f;
  let table := {| num_rows := None; pager := pager_; root_page_num := 0 |} in
  if bool_decide (num_pages pager_ = 0)
  then
    '(root_node, pager1) ← get_page pager_ 0;
    root_node' ← initialize_leaf_node root_node;
    mret (set_pager table (set_page pager1 0 root_node'))
  else mret table.

(** The [while] loop of [leaf_node_find]; [fuel] bounds its iterations. *)
Fixpoint leaf_node_find_loop (fuel : nat) (node : list Z) (key : Z)
    (min_index one_past_max_index : Z) : outcome Z :=
  if bool_decide (one_past_max_index ≠ min_index)
  then
    match fuel with
    | O => OutOfFuel
    | S fuel' =>
        let index := (min_index + one_past_max_index) `quot` 2 in
        ket_at_index ← load_int node (leaf_node_key index);
        if bool_decide (key = ket_at_index) then Returns index
        else if bool_decide (key < ket_at_index)
             then leaf_node_find_loop fuel' node key min_index index
             else leaf_node_find_loop fuel' node key (index + 1) one_past_max_index
    end
  else Returns min_index.

Definition leaf_node_find (fuel : nat) (table : Table) (page_num : Z) (key : Z)
  : outcome (Cursor * Table) :=
  '(node, pager1) ← get_page (pager table) page_num;
  num_cells ← load_int node leaf_node_num_cells;
  cell ← leaf_node_find_loop fuel node key 0 num_cells;
  mret ({| page_num := page_num; cell_num := cell; end_of_table := None |},
        set_pager table pager1).

Definition table_start (table : Table) : outcome (Cursor * Table) :=
  '(root_node, pager1) ← get_page (pager table) (root_page_num table);
  num_cells ← load_int root_node leaf_node_num_cells;
  mret ({| page_num := root_page_num table; cell_num := 0;
           end_of_table := Some (bool_decide (num_cells = 0)) |},
        set_pager table pager1).

Definition table_find (fuel : nat) (table : Table) (key : Z)
  : outcome (Cursor * Table) :=
  let root_page_num_ := root_page_num table in
  '(root_node, pager1) ← get_page (pager table) root_page_num_;
  t ← get_node_type root_node;
  if bool_decide (t = NodeType_value NODE_LEAF)
  then leaf_node_find fuel (set_pager table pager1) root_page_num_ key
  else Exits.


(** The page and the offset in it that the returned pointer designates. *)
Definition cursor_value (cursor : Cursor) (table : Table)
  : outcome (list Z * Z * Table) :=
  '(page, pager1) ← get_page (pager table) (page_num cursor);
  mret (page, leaf_node_value (cell_num cursor), set_pager table pager1).

(** The [for] loop of [leaf_node_insert]: [count] iterations, counting [i]
    down. *)
Fixpoint leaf_node_insert_shift (count : nat) (node : list Z) (i : Z)
  : outcome (list Z) :=
  match count with
  | O => Returns node
  | S count' =>
      node' ← memcpy node (leaf_node_cell i) (leaf_node_cell (i - 1))
                LEAF_NODE_CELL_SIZE;
      leaf_node_insert_shift count' node' (i - 1)
  end.

Definition leaf_node_insert (cursor : Cursor) (table : Table) (key : Z)
    (value : Row) : outcome Table :=
  '(node, pager1) ← get_page (pager table) (page_num cursor);
  num_cells ← load_int node leaf_node_num_cells;
  if bool_decide (num_cells >= LEAF_NODE_MAX_CELLS) then Exits
  else
    node1 ← (if bool_decide (cell_num cursor < num_cells)
             then leaf_node_insert_shift
                    (Z.to_nat (num_cells - cell_num cursor)) node num_cells
             else Returns node);
    n ← load_int node1 leaf_node_num_cells;
    node2 ← store_int node1 leaf_node_num_cells (n + 1);
    node3 ← store_int node2 (leaf_node_key (cell_num cursor)) key;
    node4 ← serialize_row value node3 (leaf_node_value (cell_num cursor));
    mret (set_pager table (set_page pager1 (page_num cursor) node4)).

(** [leaf_node_insert] is not called here: the function returns
    [EXECUTE_SUCCESS] once the key was not found. *)
Definition execute_insert (fuel : nat) (statement : Statement) (table : Table)
  : outcome (ExecuteResult * Table) :=
  '(node, pager1) ← get_page (pager table) (root_page_num table);
  let table1 := set_pager table pager1 in
  num_cells ← load_int node leaf_node_num_cells;
  if bool_decide (num_cells >= LEAF_NODE_MAX_CELLS)
  then mret (EXECUTE_TABLE_FULL, table1)
  else
    let row := row_to_insert statement in
    let key_to_insert := to_signed 32 (id row) in
    '(cursor, table2) ← table_find fuel table1 key_to_insert;
    if bool_decide (cell_num cursor < num_cells)
    then
      key_at_index ← load_int node (leaf_node_key (cell_num cursor));
      if bool_decide (key_at_index = key_to_insert)
      then mret (EXECUTE_DUPLICATE_KEY, table2)
      else mret (EXECUTE_SUCCESS, table2)
    else mret (EXECUTE_SUCCESS, table2).

(** The [while] loop of [execute_select]. Its body ends with the
    statement [cursor_advance;], which names the function without calling
    it: the cursor is the same at the next iteration. [printed] collects
    the rows handed to [print_row]. *)
Fixpoint execute_select_loop (fuel : nat) (cursor : Cursor) (table : Table)
    (printed : list Row) : outcome (list Row * Table) :=
  match end_of_table cursor with
  | None => Undefined
  | Some true => Returns (printed, table)
  | Some false =>
      match fuel with
      | O => OutOfFuel
      | S fuel' =>
          '(page, source, table1) ← cursor_value cursor table;
          row ← deserialize_row page source;
          execute_select_loop fuel' cursor table1 (printed ++ [row])
      end
  end.

Definition execute_select (fuel : nat) (statement : Statement) (table : Table)
  : outcome (ExecuteResult * list Row * Table) :=
  '(cursor, table1) ← table_start table;
  '(printed, table2) ← execute_select_loop fuel cursor table1 [];
  mret (EXECUTE_SUCCESS, printed, table2).

Definition execute_statement (fuel : nat) (statement : Statement) (table : Table)
  : outcome (ExecuteResult * list Row * Table) :=
  match type statement with
  | STATEMENT_INSERT =>
      '(r, table1) ← execute_insert fuel statement table;
      mret (r, [], table1)
  | STATEMENT_SELECT => execute_select fuel statement table
  end.

End Engine.

(** ** Concrete inputs used by the examples *)

(** A [char] array of [n] bytes holding the string [s] and NULs after it. *)
Definition char_array (n : Z) (s : list Z) : list Z :=
  s ++ replicate (Z.to_nat n - length s) 0.

Definition make_row (i : Z) (u e : list Z) : Row :=
  {| id := i;
     username := char_array USERNAME_SIZE u;
     email := char_array EMAIL_SIZE e |}.

(** The rows (1, "a", "a@x"), (2, "b", "b@x"), (3, "c", "c@x") and
    (5, "e", "e@x"). *)
Definition row_1 : Row := make_row 1 [97] [97; 64; 120].
Definition row_2 : Row := make_row 2 [98] [98; 64; 120].
Definition row_3 : Row := make_row 3 [99] [99; 64; 120].
Definition row_5 : Row := make_row 5 [101] [101; 64; 120].

Definition insert_statement (r : Row) : Statement :=
  {| type := STATEMENT_INSERT; row_to_insert := r |}.

Definition select_statement : Statement :=
  {| type := STATEMENT_SELECT; row_to_insert := make_row 0 [] [] |}.

Definition zero_page : list Z := replicate (Z.to_nat PAGE_SIZE) 0.

(** An allocator whose blocks hold the byte 0xAA, as left by earlier use of
    the heap. *)
Definition stale_block (page_num : Z) : list Z :=
  replicate (Z.to_nat PAGE_SIZE) 170.

Definition empty_file : File := {| contents := []; io_error := false |}.

(** ** Sequences of operations on an open pager *)

(** What a client does with an open pager: fetch a page, write into a
    resident page through the pointer it was given, flush a page. *)
Inductive PagerOp : Type :=
| OpGetPage (page_num : Z)
| OpWrite (page_num : Z) (page : list Z)
| OpFlush (page_num : Z).

Definition pager_step (malloc_page : Z -> list Z) (p : Pager) (op : PagerOp)
  : outcome Pager :=
  match op with
  | OpGetPage n => '(_, p') ← get_page malloc_page p n; mret p'
  | OpWrite n page =>
      slot ← pages_at p n;
      match slot with
      | Some _ => mret (set_page p n page)
      | None => Undefined
      end
  | OpFlush n => pager_flush p n
  end.

Fixpoint pager_run (malloc_page : Z -> list Z) (p : Pager) (ops : list PagerOp)
  : outcome Pager :=
  match ops with
  | [] => mret p
  | op :: ops' =>
      p' ← pager_step malloc_page p op; pager_run malloc_page p' ops'
  end.

(** The bytes [get_page] puts in the block on a cache miss. *)
Definition loaded_bytes (pager : Pager) (page_num : Z) : option (list Z) :=
  let num_pages0 := file_length pager `quot` PAGE_SIZE in
  let num_pages_ :=
    if bool_decide (file_length pager `rem` PAGE_SIZE ≠ 0)
    then num_pages0 + 1 else num_pages0 in
  if bool_decide (page_num <= num_pages_)
  then file_read (file_descriptor pager) (page_num * PAGE_SIZE) PAGE_SIZE
  else Some [].

(** The pager of a new, empty database file. *)
Definition new_pager : Pager :=
  {| file_descriptor := empty_file;
     file_length := 0;
     num_pages := 0;
     pages := replicate (Z.to_nat TABLE_MAX_PAGES) None |}.

(** A pager keeps the invariant that every resident page has a number
    below [num_pages]. *)
Definition resident_below_num_pages (p : Pager) : Prop :=
  forall (i : nat) (page : list Z),
    pages p !! i = Some (Some page) -> Z.of_nat i < num_pages p.

(** ** Leaf pages *)

(** The keys of the first [n] cells, as [leaf_node_key] reads them, are
    strictly ascending. *)
Definition leaf_keys_sorted (node : list Z) (n : Z) : Prop :=
  forall i j ki kj,
    0 <= i -> i < j -> j < n ->
    load_int node (leaf_node_key i) = Returns ki ->
    load_int node (leaf_node_key j) = Returns kj ->
    ki < kj.

(** The slot that [leaf_node_find] leaves in the cursor: the slot of [key]
    when a slot holds it, and otherwise the slot before which all keys are
    smaller and from which on all keys are greater. *)
Definition found_slot (node : list Z) (n key c : Z) : Prop :=
  0 <= c <= n
  /\ (forall i, 0 <= i < n ->
        load_int node (leaf_node_key i) = Returns key -> c = i)
  /\ ((forall i, 0 <= i < n ->
         load_int node (leaf_node_key i) <> Returns key) ->
      forall i ki, 0 <= i < n ->
        load_int node (leaf_node_key i) = Returns ki ->
        (i < c -> ki < key) /\ (c <= i -> key < ki)).

(** [poke mem off bs] is [mem] with the bytes [bs] at [off]. *)
Definition poke (mem : list Z) (off : nat) (bs : list Z) : list Z :=
  take off mem ++ bs ++ drop (off + length bs)%nat mem.

(** A leaf page holding [num_cells] in its header and the bytes
    [cell_bytes] from the place of cell 0 on. *)
Definition leaf_page (num_cells : Z) (cell_bytes : list Z) : list Z :=
  poke (poke (poke zero_page 0 (encode_le 4 (NodeType_value NODE_LEAF)))
             (Z.to_nat leaf_node_num_cells) (encode_le 4 num_cells))
       (Z.to_nat (leaf_node_cell 0)) cell_bytes.

(** Three cells whose keys read 16777217, 33619968 and 50462976. *)
Definition sorted_leaf : list Z := leaf_page 3 [1; 0; 0; 1; 2; 3].

(** Thirteen cells, the maximum, with ascending keys; the first reads
    50462976. *)
Definition full_leaf : list Z :=
  leaf_page 13 [0; 1; 2; 3; 4; 5; 6; 7; 8; 9; 10; 11; 12; 13; 14; 15].

(** Two cells whose keys read 16777216 and 65536: not ascending. *)
Definition unsorted_leaf : list Z := leaf_page 2 [0; 0; 0; 1; 0].

(** The table that [db_open] returns for a file holding the one page
    [page]: nothing is resident yet. *)
Definition table_of_page (page : list Z) : Table :=
  {| num_rows := None;
     pager := {| file_descriptor := {| contents := page; io_error := false |};
                 file_length := PAGE_SIZE;
                 num_pages := 1;
                 pages := replicate (Z.to_nat TABLE_MAX_PAGES) None |};
     root_page_num := 0 |}.

(** The same table once its page was fetched. *)
Definition table_of_page_loaded (page : list Z) : Table :=
  set_pager (table_of_page page) (set_page (pager (table_of_page page)) 0 page).

(** The root page of a new database: the block of the allocator with the
    node type and the cell count written by [initialize_leaf_node]. *)
Definition new_root : list Z :=
  poke (poke (stale_block 0) 0 (encode_le 4 (NodeType_value NODE_LEAF)))
       (Z.to_nat leaf_node_num_cells) (encode_le 4 0).

(** The table that [db_open] returns for the empty file. *)
Definition new_table : Table :=
  {| num_rows := None;
     pager := set_num_pages (set_page new_pager 0 new_root) 1;
     root_page_num := 0 |}.

(** The cursor that [table_start] returns on a leaf that is not empty. *)
Definition first_cell_cursor : Cursor :=
  {| page_num := 0; cell_num := 0; end_of_table := Some false |}.

(** The pager after fetching pages 2 and 0 of the empty file and
    overwriting page 2. *)
Definition fetched_pager : Pager :=
  set_num_pages
    (set_page (set_page (set_page new_pager 2 (stale_block 2)) 2 zero_page)
              0 (stale_block 0)) 3.

(** ** The pager's view of the file *)

(** The page count that [get_page] derives from [file_length] before it
    decides whether to read: whole pages, plus one for a partial page. *)
Definition known_file_pages (pager : Pager) : Z :=
  if bool_decide (file_length pager `rem` PAGE_SIZE ≠ 0)
  then file_length pager `quot` PAGE_SIZE + 1
  else file_length pager `quot` PAGE_SIZE.

(** The file that holds the one page [page]. *)
Definition file_of_page (page : list Z) : File :=
  {| contents := page; io_error := false |}.


(** The string [s] left-justified in a field of [n] bytes, NULs after it. *)
Definition null_padded (n : Z) (s : list Z) : list Z :=
  s ++ replicate (Z.to_nat n - length s) 0.

(** ** Closing the database *)

(** The assignment [pager->pages[page_num] = NULL]. *)
Definition clear_page (pager : Pager) (page_num : Z) : Pager :=
  {| file_descriptor := file_descriptor pager;
     file_length := file_length pager;
     num_pages := num_pages pager;
     pages := <[Z.to_nat page_num := None]> (pages pager) |}.

(** The first [for] loop of [db_close], [count] iterations from [i] on:
    every resident page is flushed and its block freed. The statement
    [pager->pages[i] == NULL;] compares and assigns nothing, so the slot
    keeps the pointer; [freed] lists the page numbers whose block was
    freed. *)
Fixpoint db_close_flush_loop (count : nat) (i : Z) (pager : Pager)
    (freed : list Z) : outcome (Pager * list Z) :=
  match count with
  | O => Returns (pager, freed)
  | S count' =>
      slot ← pages_at pager i;
      match slot with
      | None => db_close_flush_loop count' (i + 1) pager freed
      | Some _ =>
          pager' ← pager_flush pager i;
          db_close_flush_loop count' (i + 1) pager' (i :: freed)
      end
  end.

(** The second [for] loop: every slot that is not [NULL] is freed and set
    to [NULL]; freeing a block a second time is undefined behaviour. *)
Fixpoint db_close_free_loop (count : nat) (i : Z) (pager : Pager)
    (freed : list Z) : outcome Pager :=
  match count with
  | O => Returns pager
  | S count' =>
      slot ← pages_at pager i;
      match slot with
      | None => db_close_free_loop count' (i + 1) pager freed
      | Some _ =>
          if bool_decide (i ∈ freed) then Undefined
          else db_close_free_loop count' (i + 1) (clear_page pager i) freed
      end
  end.

(** [db_close] returns nothing; the model returns the file it leaves. The
    value of [num_full_pages], computed from the never assigned
    [num_rows], is not used. [close] fails when the device does. *)
Definition db_close (table : Table) : outcome File :=
  let pager_ := pager table in
  '(pager1, freed) ← db_close_flush_loop (Z.to_nat (num_pages pager_)) 0 pager_ [];
  if io_error (file_descriptor pager1) then Exits
  else
    pager2 ← db_close_free_loop (Z.to_nat TABLE_MAX_PAGES) 0 pager1 freed;
    mret (file_descriptor pager2).

(** The file [f] holds the page [page] at page number [i]. *)
Definition file_holds_page (f : File) (i : Z) (page : list Z) : Prop :=
  file_read f (i * PAGE_SIZE) PAGE_SIZE = Some page.

(** ** Printing a leaf *)

(** The [for] loop of [print_leaf_node]: the lines [ - i : key] as pairs. *)
Fixpoint print_leaf_node_loop (count : nat) (node : list Z) (i : Z)
  : outcome (list (Z * Z)) :=
  match count with
  | O => Returns []
  | S count' =>
      key ← load_int node (leaf_node_key i);
      rest ← print_leaf_node_loop count' node (i + 1);
      mret ((i, key) :: rest)
  end.

(** The size printed in the first line, and the lines of the keys. *)
Definition print_leaf_node (node : list Z) : outcome (Z * list (Z * Z)) :=
  num_cells ← load_int node leaf_node_num_cells;
  lines ← print_leaf_node_loop (Z.to_nat num_cells) node 0;
  mret (num_cells, lines).

(** ** Preparing an insert statement *)

Inductive PrepareResult : Type :=
| PREPARE_SUCCESS
| PREPARE_SYNTAX_ERROR
| PREPARE_NEGATIVE_ID
| PREPARE_STRING_TOO_LONG
| PREPARE_UNRECOGNIZED_STATEMENT.

(** The tokens that successive calls of [strtok(_, " ")] return on the
    string [s]: the maximal runs of bytes other than the space; [cur] is
    the run being read. *)
Fixpoint strtok_tokens (s cur : list Z) : list (list Z) :=
  match s with
  | [] => match cur with [] => [] | _ => [cur] end
  | c :: s' =>
      if bool_decide (c = 32)
      then match cur with
           | [] => strtok_tokens s' []
           | _ => cur :: strtok_tokens s' []
           end
      else strtok_tokens s' (cur ++ [c])
  end.

Definition isspace (c : Z) : bool := bool_decide (c = 32 \/ 9 <= c <= 13).

Definition isdigit (c : Z) : bool := bool_decide (48 <= c <= 57).

Fixpoint skip_spaces (s : list Z) : list Z :=
  match s with
  | [] => []
  | c :: s' => if isspace c then skip_spaces s' else s
  end.

(** The value of the leading decimal digits of [s], after [acc]. *)
Fixpoint digits_value (s : list Z) (acc : Z) : Z :=
  match s with
  | [] => acc
  | c :: s' => if isdigit c then digits_value s' (10 * acc + (c - 48)) else acc
  end.

(** [atoi]: white space, an optional sign, decimal digits; a value that
    an [int] cannot hold is undefined behaviour. *)
Definition atoi (s : list Z) : outcome Z :=
  let s1 := skip_spaces s in
  let v :=
    match s1 with
    | c :: t =>
        if bool_decide (c = 45) then - digits_value t 0
        else if bool_decide (c = 43) then digits_value t 0
        else digits_value s1 0
    | [] => 0
    end in
  if bool_decide (- 2 ^ 31 <= v < 2 ^ 31) then Returns v else Undefined.

(** [strcpy(dest, src)] into the array [dest]: the string, its
    terminator, and the rest of the array as it was; a string that does
    not fit is undefined behaviour. *)
Definition strcpy (dest : list Z) (src : list Z) : outcome (list Z) :=
  if bool_decide (length src + 1 <= length dest)%nat
  then Returns (src ++ [0] ++ drop (length src + 1) dest)
  else Undefined.

Definition set_type_insert (statement : Statement) : Statement :=
  {| type := STATEMENT_INSERT; row_to_insert := row_to_insert statement |}.

(** [buffer] is the line read; [keyword] is not looked at. *)
Definition prepare_insert (buffer : list Z) (statement : Statement)
  : outcome (PrepareResult * Statement) :=
  let statement1 := set_type_insert statement in
  let tokens := strtok_tokens (c_str buffer) [] in
  match tokens !! 1%nat, tokens !! 2%nat, tokens !! 3%nat with
  | Some id_string, Some username_, Some email_ =>
      id_ ← atoi id_string;
      if bool_decide (id_ < 0) then mret (PREPARE_NEGATIVE_ID, statement1)
      else if bool_decide (Z.of_nat (length username_) > COLUMN_USERNAME_SIZE)
      then mret (PREPARE_STRING_TOO_LONG, statement1)
      else if bool_decide (Z.of_nat (length email_) > COLUMN_EMAIL_SIZE)
      then mret (PREPARE_STRING_TOO_LONG, statement1)
      else
        u ← strcpy (username (row_to_insert statement)) username_;
        e ← strcpy (email (row_to_insert statement)) email_;
        mret (PREPARE_SUCCESS,
              {| type := STATEMENT_INSERT;
                 row_to_insert := {| id := id_; username := u; email := e |} |})
  | _, _, _ => mret (PREPARE_SYNTAX_ERROR, statement1)
  end.

(** The line "insert 7 bob bob@x" and a statement whose arrays hold 0xAA. *)
Definition insert_line : list Z :=
  [105; 110; 115; 101; 114; 116; 32; 55; 32; 98; 111; 98; 32;
   98; 111; 98; 64; 120; 0].

Definition stale_statement : Statement :=
  {| type := STATEMENT_SELECT;
     row_to_insert := {| id := 0;
                         username := replicate (Z.to_nat USERNAME_SIZE) 170;
                         email := replicate (Z.to_nat EMAIL_SIZE) 170 |} |}.

(** ** Further concrete inputs *)

(** The pager of [table_of_page_loaded sorted_leaf] once page 0 was
    flushed. *)
Definition flushed_pager : Pager :=
  set_file (pager (table_of_page_loaded sorted_leaf)) (file_of_page sorted_leaf).

(** The pager after the first fetch of page 0 of the empty file. *)
Definition fetched_once_pager : Pager :=
  set_num_pages (set_page new_pager 0 (stale_block 0)) 1.

(** A row with a negative identifier and stale bytes after the
    terminators: (-7, "bob", "b@x"). *)
Definition stale_row : Row :=
  {| id := -7;
     username := [98; 111; 98; 0] ++ replicate 29 170;
     email := [98; 64; 120; 0] ++ replicate 252 170 |}.

(** The statement that [prepare_insert] makes of [insert_line] in
    [stale_statement]. *)
Definition prepared_statement : Statement :=
  {| type := STATEMENT_INSERT;
     row_to_insert :=
       {| id := 7;
          username := [98; 111; 98] ++ [0]
                      ++ drop 4 (username (row_to_insert stale_statement));
          email := [98; 111; 98; 64; 120] ++ [0]
                   ++ drop 6 (email (row_to_insert stale_statement)) |} |}.

(** The line "insert -1 a b". *)
Definition negative_line : list Z :=
  [105; 110; 115; 101; 114; 116; 32; 45; 49; 32; 97; 32; 98; 0].

(** Every resident page of the pager has [PAGE_SIZE] bytes. *)
Definition pages_sized (p : Pager) : Prop :=
  forall (j : nat) (page : list Z),
    pages p !! j = Some (Some page) -> length page = Z.to_nat PAGE_SIZE.

(** * Properties *)

(** ** The outcome monad *)

Lemma bind_Returns {A B} (a : A) (k : A -> outcome B) :
  (Returns a ≫= k) = k a.
Proof. reflexivity. Qed.

Lemma bind_Returns_inv {A B} (m : outcome A) (k : A -> outcome B) (b : B) :
  (m ≫= k) = Returns b -> exists a, m = Returns a /\ k a = Returns b.
Proof. destruct m; try discriminate. intros H. exists a. split; [reflexivity | exact H]. Qed.

(** Splits a hypothesis [x ← m; k = Returns b] into its two steps. *)
Ltac bind_inv H :=
  let a := fresh "r" in
  let Ha := fresh "Hstep" in
  apply bind_Returns_inv in H; destruct H as (a & Ha & H).

(** ** Memory *)

Lemma in_bounds_spec mem off len :
  in_bounds mem off len = true
  <-> 0 <= off /\ 0 <= len /\ off + len <= Z.of_nat (length mem).
Proof.
  unfold in_bounds. rewrite !andb_true_iff, !bool_decide_eq_true. tauto.
Qed.

Lemma load_bytes_Returns mem off len :
  0 <= off -> 0 <= len -> off + len <= Z.of_nat (length mem) ->
  load_bytes mem off len
  = Returns (take (Z.to_nat len) (drop (Z.to_nat off) mem)).
Proof.
  intros. unfold load_bytes.
  rewrite (proj2 (in_bounds_spec mem off len)) by auto. reflexivity.
Qed.

Lemma load_bytes_inv mem off len bs :
  load_bytes mem off len = Returns bs ->
  0 <= off /\ 0 <= len /\ off + len <= Z.of_nat (length mem)
  /\ bs = take (Z.to_nat len) (drop (Z.to_nat off) mem).
Proof.
  unfold load_bytes. destruct (in_bounds mem off len) eqn:E; [|discriminate].
  apply in_bounds_spec in E. intros [= <-]. tauto.
Qed.

Lemma store_bytes_Returns mem off bs :
  0 <= off -> off + Z.of_nat (length bs) <= Z.of_nat (length mem) ->
  store_bytes mem off bs
  = Returns (take (Z.to_nat off) mem ++ bs
             ++ drop (Z.to_nat off + length bs)%nat mem).
Proof.
  intros. unfold store_bytes.
  rewrite (proj2 (in_bounds_spec mem off _)) by lia. reflexivity.
Qed.

Lemma store_bytes_inv mem off bs mem' :
  store_bytes mem off bs = Returns mem' ->
  0 <= off /\ off + Z.of_nat (length bs) <= Z.of_nat (length mem)
  /\ mem' = take (Z.to_nat off) mem ++ bs
            ++ drop (Z.to_nat off + length bs)%nat mem.
Proof.
  unfold store_bytes.
  destruct (in_bounds mem off _) eqn:E; [|discriminate].
  apply in_bounds_spec in E. intros [= <-]. tauto.
Qed.

Lemma store_bytes_length mem off bs mem' :
  store_bytes mem off bs = Returns mem' -> length mem' = length mem.
Proof.
  intros H. apply store_bytes_inv in H as (H0 & H1 & ->).
  rewrite !length_app, length_take, length_drop. lia.
Qed.

(** A store changes no byte outside the range it writes. *)
Lemma store_bytes_frame mem off bs mem' (i : nat) :
  store_bytes mem off bs = Returns mem' ->
  Z.of_nat i < off \/ off + Z.of_nat (length bs) <= Z.of_nat i ->
  mem' !! i = mem !! i.
Proof.
  intros H Hi. apply store_bytes_inv in H as (H0 & H1 & ->).
  destruct Hi as [Hi | Hi].
  - rewrite lookup_app_l by (rewrite length_take; lia).
    apply lookup_take_lt. lia.
  - rewrite lookup_app_r by (rewrite length_take; lia).
    rewrite lookup_app_r by (rewrite length_take; lia).
    rewrite lookup_drop, length_take. f_equal. lia.
Qed.

Lemma load_store_same mem off bs mem' :
  store_bytes mem off bs = Returns mem' ->
  load_bytes mem' off (Z.of_nat (length bs)) = Returns bs.
Proof.
  intros H. pose proof (store_bytes_length _ _ _ _ H) as Hlen.
  apply store_bytes_inv in H as (H0 & H1 & ->).
  rewrite load_bytes_Returns by lia. f_equal.
  rewrite drop_app_length' by (rewrite length_take; lia).
  rewrite Nat2Z.id. apply take_app_length.
Qed.

Lemma load_store_other mem off bs mem' o l :
  store_bytes mem off bs = Returns mem' ->
  o + l <= off \/ off + Z.of_nat (length bs) <= o ->
  load_bytes mem' o l = load_bytes mem o l.
Proof.
  intros H Hd. pose proof (store_bytes_length _ _ _ _ H) as Hlen.
  unfold load_bytes, in_bounds. rewrite Hlen.
  destruct (bool_decide (0 <= o) && bool_decide (0 <= l)
            && bool_decide (o + l <= Z.of_nat (length mem))) eqn:E; [|reflexivity].
  rewrite !andb_true_iff, !bool_decide_eq_true in E. destruct E as [[Ho Hl] Hb].
  f_equal. apply list_eq. intros i.
  destruct (decide (i < Z.to_nat l)%nat) as [Hlt | Hge].
  - rewrite !lookup_take_lt, !lookup_drop by lia.
    eapply store_bytes_frame; [exact H | lia].
  - rewrite !lookup_take_ge by lia. reflexivity.
Qed.

(** ** Integers in memory *)

Lemma length_encode_le n v : length (encode_le n v) = n.
Proof. revert v. induction n as [|n IH]; intros v; simpl; [|rewrite IH]; reflexivity. Qed.

Lemma decode_encode_le n v : decode_le (encode_le n v) = v `mod` 256 ^ Z.of_nat n.
Proof.
  revert v. induction n as [|n IH]; intros v.
  - simpl. symmetry. apply Z.mod_1_r.
  - cbn [encode_le decode_le]. rewrite IH.
    rewrite Nat2Z.inj_succ, Z.pow_succ_r by lia.
    rewrite Z.rem_mul_r by lia. reflexivity.
Qed.

Lemma to_signed_mod bits v : to_signed bits (v `mod` 2 ^ bits) = to_signed bits v.
Proof. unfold to_signed. rewrite Zmod_mod. reflexivity. Qed.

Lemma to_signed_small bits v :
  0 < bits -> - 2 ^ (bits - 1) <= v < 2 ^ (bits - 1) -> to_signed bits v = v.
Proof.
  intros Hb Hv. unfold to_signed.
  assert (Hp : 2 ^ bits = 2 * 2 ^ (bits - 1)).
  { rewrite <- Z.pow_succ_r by lia. f_equal. lia. }
  destruct (decide (0 <= v)) as [Hpos | Hneg].
  - rewrite Z.mod_small by lia. rewrite bool_decide_eq_true_2 by lia. reflexivity.
  - replace (v `mod` 2 ^ bits) with (v + 2 ^ bits).
    + rewrite bool_decide_eq_false_2 by lia. lia.
    + apply Z.mod_unique with (q := -1); lia.
Qed.

Lemma to_signed_range bits v :
  0 < bits -> - 2 ^ (bits - 1) <= to_signed bits v < 2 ^ (bits - 1).
Proof.
  intros Hb. unfold to_signed.
  assert (Hp : 2 ^ bits = 2 * 2 ^ (bits - 1)).
  { rewrite <- Z.pow_succ_r by lia. f_equal. lia. }
  assert (0 < 2 ^ (bits - 1)) by (apply Z.pow_pos_nonneg; lia).
  pose proof (Z.mod_pos_bound v (2 ^ bits)) as Hm.
  case_bool_decide; lia.
Qed.

Lemma load_store_int mem off v mem' :
  store_int mem off v = Returns mem' ->
  load_int mem' off = Returns (to_signed 32 v).
Proof.
  unfold store_int, load_int. intros H.
  apply load_store_same in H. rewrite length_encode_le in H.
  change (Z.of_nat (Z.to_nat SIZEOF_INT)) with SIZEOF_INT in H.
  rewrite H, bind_Returns, decode_encode_le.
  change (256 ^ Z.of_nat (Z.to_nat SIZEOF_INT)) with (2 ^ 32).
  unfold mret, outcome_ret. rewrite to_signed_mod. reflexivity.
Qed.

(** ** Row codec *)

Lemma strncpy_bytes_length src n bs :
  strncpy_bytes src n = Returns bs -> length bs = n.
Proof.
  revert src bs. induction n as [|n IH]; intros src bs; simpl.
  - intros [= <-]. reflexivity.
  - destruct src as [|c src]; [discriminate|].
    case_bool_decide.
    + intros [= <-]. simpl. rewrite length_replicate. reflexivity.
    + intros Hs. bind_inv Hs. injection Hs as <-. simpl. f_equal. eauto.
Qed.

(** [strncpy] always returns when the source array has at least [n] bytes. *)
Lemma strncpy_bytes_Returns src n :
  (n <= length src)%nat -> exists bs, strncpy_bytes src n = Returns bs.
Proof.
  revert src. induction n as [|n IH]; intros src Hn; simpl; [eauto|].
  destruct src as [|c src]; simpl in Hn; [lia|].
  case_bool_decide; [eauto|].
  destruct (IH src) as [bs ->]; [lia|]. rewrite bind_Returns. eauto.
Qed.

Lemma c_str_pad a k : c_str (c_str a ++ replicate k 0) = c_str a.
Proof.
  induction a as [|c a IH]; simpl.
  - destruct k; reflexivity.
  - case_bool_decide as Hc; simpl.
    + destruct k; reflexivity.
    + rewrite bool_decide_eq_false_2 by exact Hc. f_equal. exact IH.
Qed.

(** When the string fits, [strncpy] writes it left-justified and
    NUL-padded. *)
Lemma strncpy_bytes_c_str src n bs :
  strncpy_bytes src n = Returns bs ->
  (length (c_str src) < n)%nat ->
  bs = c_str src ++ replicate (n - length (c_str src)) 0.
Proof.
  revert src bs. induction n as [|n IH]; intros src bs; [lia|].
  destruct src as [|c src]; [discriminate|]. cbn [strncpy_bytes c_str].
  case_bool_decide.
  - intros [= <-] _. reflexivity.
  - intros Hs Hl. bind_inv Hs. injection Hs as <-. simpl in Hl.
    apply IH in Hstep; [|lia]. subst r. reflexivity.
Qed.

Lemma strncpy_inv mem dest src n mem' :
  strncpy mem dest src n = Returns mem' ->
  exists bs, strncpy_bytes src (Z.to_nat n) = Returns bs
             /\ length bs = Z.to_nat n
             /\ store_bytes mem dest bs = Returns mem'.
Proof.
  unfold strncpy. intros H. bind_inv H. exists r.
  eauto using strncpy_bytes_length.
Qed.

(** What [serialize_row] does, as three stores. *)
Lemma serialize_row_inv r mem dst mem' :
  serialize_row r mem dst = Returns mem' ->
  exists m1 m2 u e,
    store_bytes mem dst (encode_le 8 (id r)) = Returns m1
    /\ strncpy_bytes (username r) 33 = Returns u /\ length u = 33%nat
    /\ store_bytes m1 (dst + 8) u = Returns m2
    /\ strncpy_bytes (email r) 256 = Returns e /\ length e = 256%nat
    /\ store_bytes m2 (dst + 41) e = Returns mem'.
Proof.
  unfold serialize_row. intros H. bind_inv H. bind_inv H.
  apply strncpy_inv in Hstep0 as (u & Hu & Hlu & Hsu).
  apply strncpy_inv in H as (e & He & Hle & Hse).
  replace (dst + ID_OFFSET) with dst in Hstep by (unfold ID_OFFSET; lia).
  exists r0, r1, u, e. repeat split; assumption.
Qed.

(** [serialize_row] writes the [ROW_SIZE] bytes from [destination] on, and
    no other byte of the buffer. *)
Lemma serialize_row_frame r mem dst mem' (i : nat) :
  serialize_row r mem dst = Returns mem' ->
  Z.of_nat i < dst \/ dst + ROW_SIZE <= Z.of_nat i ->
  mem' !! i = mem !! i.
Proof.
  intros H Hi.
  apply serialize_row_inv in H
    as (m1 & m2 & u & e & H1 & _ & Hlu & H2 & _ & Hle & H3).
  assert (HR : ROW_SIZE = 297) by reflexivity.
  rewrite (store_bytes_frame _ _ _ _ i H3) by (rewrite Hle; lia).
  rewrite (store_bytes_frame _ _ _ _ i H2) by (rewrite Hlu; lia).
  rewrite (store_bytes_frame _ _ _ _ i H1) by (rewrite length_encode_le; lia).
  reflexivity.
Qed.

Lemma serialize_row_length r mem dst mem' :
  serialize_row r mem dst = Returns mem' -> length mem' = length mem.
Proof.
  intros H.
  apply serialize_row_inv in H as (m1 & m2 & u & e & H1 & _ & _ & H2 & _ & _ & H3).
  apply store_bytes_length in H1, H2, H3. congruence.
Qed.

(** [serialize_row] returns whenever the two arrays have their declared
    sizes and the destination has room for a row. *)
Lemma serialize_row_Returns r mem dst :
  length (username r) = Z.to_nat USERNAME_SIZE ->
  length (email r) = Z.to_nat EMAIL_SIZE ->
  0 <= dst -> dst + ROW_SIZE <= Z.of_nat (length mem) ->
  exists mem', serialize_row r mem dst = Returns mem'.
Proof.
  intros Hu He Hd Hm. assert (HR : ROW_SIZE = 297) by reflexivity.
  unfold serialize_row, strncpy.
  rewrite store_bytes_Returns
    by (rewrite ?length_encode_le; unfold ID_OFFSET; change (Z.to_nat ID_SIZE) with 8%nat; lia).
  rewrite bind_Returns.
  set (m1 := (take _ mem ++ _ ++ drop _ mem)).
  assert (Hm1 : length m1 = length mem).
  { subst m1. rewrite !length_app, length_take, length_drop, length_encode_le.
    unfold ID_OFFSET. change (Z.to_nat ID_SIZE) with 8%nat. lia. }
  destruct (strncpy_bytes_Returns (username r) (Z.to_nat USERNAME_SIZE)) as [u Hsu]; [lia|].
  pose proof (strncpy_bytes_length _ _ _ Hsu) as Hlu.
  rewrite Hsu, bind_Returns.
  change (Z.to_nat USERNAME_SIZE) with 33%nat in *.
  change USERNAME_OFFSET with 8.
  rewrite store_bytes_Returns by lia. rewrite bind_Returns.
  set (m2 := (take _ m1 ++ _ ++ drop _ m1)).
  assert (Hm2 : length m2 = length mem).
  { subst m2. rewrite !length_app, length_take, length_drop. lia. }
  destruct (strncpy_bytes_Returns (email r) (Z.to_nat EMAIL_SIZE)) as [e Hse]; [lia|].
  pose proof (strncpy_bytes_length _ _ _ Hse) as Hle.
  rewrite Hse, bind_Returns.
  change (Z.to_nat EMAIL_SIZE) with 256%nat in *.
  change EMAIL_OFFSET with 41.
  rewrite store_bytes_Returns by lia. eauto.
Qed.

(** C4. For every row with a non-negative identifier whose username and
    email strings are at most 32 and 255 bytes long, serializing it into a
    buffer and deserializing from the same place yields a row with the same
    identifier and the same username and email strings. *)
Theorem serialize_deserialize_roundtrip (r : Row) (mem : list Z) (dst : Z) :
  0 <= id r < 2 ^ 63 ->
  length (username r) = Z.to_nat USERNAME_SIZE ->
  length (email r) = Z.to_nat EMAIL_SIZE ->
  Z.of_nat (length (c_str (username r))) <= COLUMN_USERNAME_SIZE ->
  Z.of_nat (length (c_str (email r))) <= COLUMN_EMAIL_SIZE ->
  0 <= dst -> dst + ROW_SIZE <= Z.of_nat (length mem) ->
  exists mem' r',
    serialize_row r mem dst = Returns mem'
    /\ deserialize_row mem' dst = Returns r'
    /\ id r' = id r
    /\ c_str (username r') = c_str (username r)
    /\ c_str (email r') = c_str (email r).
Proof.
  intros Hid Hu He Hsu Hse Hd Hm.
  destruct (serialize_row_Returns r mem dst Hu He Hd Hm) as [mem' Hser].
  pose proof (serialize_row_length _ _ _ _ Hser) as Hlen.
  exists mem'.
  apply serialize_row_inv in Hser
    as (m1 & m2 & u & e & H1 & Hcu & Hlu & H2 & Hce & Hle & H3).
  assert (Hi : load_bytes mem' dst 8 = Returns (encode_le 8 (id r))).
  { rewrite (load_store_other _ _ _ _ dst 8 H3) by lia.
    rewrite (load_store_other _ _ _ _ dst 8 H2) by lia.
    apply load_store_same in H1. rewrite length_encode_le in H1. exact H1. }
  assert (Hlu' : load_bytes mem' (dst + 8) 33 = Returns u).
  { rewrite (load_store_other _ _ _ _ (dst + 8) 33 H3) by lia.
    apply load_store_same in H2. rewrite Hlu in H2. exact H2. }
  assert (Hle' : load_bytes mem' (dst + 41) 256 = Returns e).
  { apply load_store_same in H3. rewrite Hle in H3. exact H3. }
  eexists. split.
  { unfold serialize_row, strncpy.
    replace (dst + ID_OFFSET) with dst by (unfold ID_OFFSET; lia).
    change (Z.to_nat ID_SIZE) with 8%nat. rewrite H1, bind_Returns.
    change (Z.to_nat USERNAME_SIZE) with 33%nat. rewrite Hcu, bind_Returns.
    change (dst + USERNAME_OFFSET) with (dst + 8). rewrite H2, bind_Returns.
    change (Z.to_nat EMAIL_SIZE) with 256%nat. rewrite Hce, bind_Returns.
    exact H3. }
  split.
  { unfold deserialize_row.
    replace (dst + ID_OFFSET) with dst by (unfold ID_OFFSET; lia).
    change ID_SIZE with 8. rewrite Hi, bind_Returns.
    change (dst + USERNAME_OFFSET) with (dst + 8).
    change USERNAME_SIZE with 33. rewrite Hlu', bind_Returns.
    change (dst + EMAIL_OFFSET) with (dst + 41).
    change EMAIL_SIZE with 256. rewrite Hle', bind_Returns. reflexivity. }
  cbn [id username email].
  apply strncpy_bytes_c_str in Hcu;
    [|change COLUMN_USERNAME_SIZE with 32 in Hsu; lia].
  apply strncpy_bytes_c_str in Hce;
    [|change COLUMN_EMAIL_SIZE with 255 in Hse; lia].
  split; [|split].
  - rewrite decode_encode_le. change (256 ^ Z.of_nat 8) with (2 ^ 64).
    rewrite to_signed_mod. apply to_signed_small; [lia|].
    change (2 ^ (64 - 1)) with (2 ^ 63). lia.
  - rewrite Hcu. apply c_str_pad.
  - rewrite Hce. apply c_str_pad.
Qed.

Lemma serialize_deserialize_roundtrip_witness :
  exists mem' r',
    serialize_row row_1 zero_page 321 = Returns mem'
    /\ deserialize_row mem' 321 = Returns r'
    /\ id r' = id row_1
    /\ c_str (username r') = c_str (username row_1)
    /\ c_str (email r') = c_str (email row_1).
Proof.
  apply (serialize_deserialize_roundtrip row_1 zero_page 321).
  - simpl. lia.
  - reflexivity.
  - reflexivity.
  - vm_compute. discriminate.
  - vm_compute. discriminate.
  - lia.
  - vm_compute. discriminate.
Defined.

(** ** Pager *)

Section PagerProperties.

Variable malloc_page : Z -> list Z.

Lemma pages_at_inv pager page_num slot :
  pages_at pager page_num = Returns slot ->
  0 <= page_num < TABLE_MAX_PAGES
  /\ slot = default None (pages pager !! Z.to_nat page_num).
Proof.
  unfold pages_at. case_bool_decide; [|discriminate]. intros [= <-]. auto.
Qed.

Lemma pages_at_Returns pager page_num :
  0 <= page_num < TABLE_MAX_PAGES ->
  pages_at pager page_num
  = Returns (default None (pages pager !! Z.to_nat page_num)).
Proof. intros H. unfold pages_at. rewrite bool_decide_eq_true_2 by exact H. reflexivity. Qed.

(** The guard of [get_page] stops every page number above
    [TABLE_MAX_PAGES]. *)
Lemma get_page_exits_above_max pager page_num :
  page_num > TABLE_MAX_PAGES -> get_page malloc_page pager page_num = Exits.
Proof. intros H. unfold get_page. rewrite bool_decide_eq_true_2 by exact H. reflexivity. Qed.

(** A resident page is returned as it is and the pager does not change. *)
Lemma get_page_hit pager page_num page :
  0 <= page_num < TABLE_MAX_PAGES ->
  pages pager !! Z.to_nat page_num = Some (Some page) ->
  get_page malloc_page pager page_num = Returns (page, pager).
Proof.
  intros Hn Hp. unfold get_page.
  rewrite (bool_decide_eq_false_2 (page_num > TABLE_MAX_PAGES)) by lia.
  rewrite (pages_at_Returns _ _ Hn), bind_Returns, Hp. reflexivity.
Qed.

Lemma get_page_miss pager page_num bs :
  0 <= page_num < TABLE_MAX_PAGES ->
  default None (pages pager !! Z.to_nat page_num) = None ->
  loaded_bytes pager page_num = Some bs ->
  let page := bs ++ drop (length bs) (malloc_page page_num) in
  get_page malloc_page pager page_num
  = Returns (page,
             set_num_pages (set_page pager page_num page)
               (Z.max (num_pages pager) (page_num + 1))).
Proof.
  intros Hn Hp Hb page. unfold get_page.
  rewrite (bool_decide_eq_false_2 (page_num > TABLE_MAX_PAGES)) by lia.
  rewrite (pages_at_Returns _ _ Hn), bind_Returns, Hp.
  unfold loaded_bytes in Hb. cbv zeta.
  assert (Hpage :
    (if bool_decide (page_num <=
          (if bool_decide (file_length pager `rem` PAGE_SIZE ≠ 0)
           then file_length pager `quot` PAGE_SIZE + 1
           else file_length pager `quot` PAGE_SIZE))
     then match file_read (file_descriptor pager) (page_num * PAGE_SIZE) PAGE_SIZE with
          | Some bs0 => Returns (bs0 ++ drop (length bs0) (malloc_page page_num))
          | None => Exits
          end
     else Returns (malloc_page page_num)) = Returns page).
  { destruct (bool_decide (page_num <= _)).
    - rewrite Hb. reflexivity.
    - injection Hb as <-. reflexivity. }
  rewrite Hpage, bind_Returns. f_equal. f_equal.
  unfold set_num_pages, set_page; cbn [num_pages pages file_descriptor file_length].
  clear Hpage Hb. case_bool_decide; f_equal; lia.
Qed.

(** Every way [get_page] returns. *)
Lemma get_page_inv pager page_num page pager' :
  get_page malloc_page pager page_num = Returns (page, pager') ->
  0 <= page_num < TABLE_MAX_PAGES
  /\ ((pages pager !! Z.to_nat page_num = Some (Some page) /\ pager' = pager)
      \/ (default None (pages pager !! Z.to_nat page_num) = None
          /\ pager' = set_num_pages (set_page pager page_num page)
                        (Z.max (num_pages pager) (page_num + 1)))).
Proof.
  intros H. pose proof H as H0. unfold get_page in H.
  case_bool_decide; [discriminate|].
  bind_inv H. apply pages_at_inv in Hstep as [Hn Hslot].
  split; [exact Hn|].
  destruct (pages pager !! Z.to_nat page_num) as [[pg|]|] eqn:Hp; cbn in Hslot; subst r.
  - left. injection H as <- <-. auto.
  - right. split; [reflexivity|].
    destruct (loaded_bytes pager page_num) as [bs|] eqn:Hb.
    + rewrite (get_page_miss pager page_num bs) in H0 by (rewrite ?Hp; auto).
      injection H0 as <- <-. reflexivity.
    + exfalso. unfold loaded_bytes in Hb. cbv zeta in H, Hb.
      destruct (bool_decide (page_num <= _)); [|discriminate].
      rewrite Hb in H. discriminate.
  - right. split; [reflexivity|].
    destruct (loaded_bytes pager page_num) as [bs|] eqn:Hb.
    + rewrite (get_page_miss pager page_num bs) in H0 by (rewrite ?Hp; auto).
      injection H0 as <- <-. reflexivity.
    + exfalso. unfold loaded_bytes in Hb. cbv zeta in H, Hb.
      destruct (bool_decide (page_num <= _)); [|discriminate].
      rewrite Hb in H. discriminate.
Qed.

(** C7. The guard of [get_page] lets the page number [TABLE_MAX_PAGES]
    itself through, and the function then indexes the page array, of
    [TABLE_MAX_PAGES] elements, at that index: an access one past the end
    of the array. *)
Theorem get_page_accepts_index_past_the_end (pager : Pager) :
  bool_decide (TABLE_MAX_PAGES > TABLE_MAX_PAGES) = false
  /\ get_page malloc_page pager TABLE_MAX_PAGES = Undefined.
Proof. split; reflexivity. Qed.

(** C8 (amended). On a cache miss with a working device, [get_page]
    returns a block whose leading bytes are the bytes read from the file at
    the page's offset, and whose other bytes are those the allocator left
    in the block, which is not cleared; for a page at or beyond the end of
    the file the block is returned as the allocator handed it out. *)
Theorem get_page_miss_keeps_block_bytes (pager : Pager) (page_num : Z) :
  pages_at pager page_num = Returns None ->
  io_error (file_descriptor pager) = false ->
  exists bs page pager',
    get_page malloc_page pager page_num = Returns (page, pager')
    /\ (bs = [] \/ bs = take (Z.to_nat PAGE_SIZE)
                          (drop (Z.to_nat (page_num * PAGE_SIZE))
                                (contents (file_descriptor pager))))
    /\ page = bs ++ drop (length bs) (malloc_page page_num)
    /\ (Z.of_nat (length (contents (file_descriptor pager)))
        <= page_num * PAGE_SIZE -> page = malloc_page page_num).
Proof.
  intros Hslot Hio. apply pages_at_inv in Hslot as [Hn Hslot].
  assert (Hb : exists bs, loaded_bytes pager page_num = Some bs
     /\ (bs = [] \/ bs = take (Z.to_nat PAGE_SIZE)
                          (drop (Z.to_nat (page_num * PAGE_SIZE))
                                (contents (file_descriptor pager))))).
  { unfold loaded_bytes, file_read. rewrite Hio.
    destruct (bool_decide (page_num <= _)); eauto. }
  destruct Hb as (bs & Hb & Hbs).
  exists bs. eexists. eexists. split.
  { apply get_page_miss; [exact Hn | symmetry; exact Hslot | exact Hb]. }
  split; [exact Hbs|]. split; [reflexivity|].
  intros Heof. assert (bs = []) as ->.
  { destruct Hbs as [-> | ->]; [reflexivity|].
    rewrite drop_ge by lia. apply take_nil. }
  reflexivity.
Qed.

Lemma pager_open_resident f p :
  pager_open f = Returns p -> resident_below_num_pages p.
Proof.
  destruct f as [fd|]; [|discriminate]. unfold pager_open.
  case_bool_decide; [discriminate|]. intros Heq i page Hi.
  assert (Hp : pages p = replicate (Z.to_nat TABLE_MAX_PAGES) None)
    by (injection Heq as <-; reflexivity).
  rewrite Hp in Hi. apply lookup_replicate in Hi as [[=] _].
Qed.

Lemma get_page_step pager page_num page pager' :
  resident_below_num_pages pager ->
  get_page malloc_page pager page_num = Returns (page, pager') ->
  resident_below_num_pages pager'
  /\ num_pages pager <= num_pages pager'
  /\ page_num + 1 <= num_pages pager'.
Proof.
  intros Hinv H. apply get_page_inv in H as [Hn [[Hp ->] | [Hp ->]]].
  - split; [exact Hinv|]. split; [lia|].
    apply Hinv in Hp. lia.
  - cbn [num_pages set_num_pages]. split; [|lia].
    intros i pg. cbn [pages set_num_pages set_page num_pages].
    destruct (decide (i = Z.to_nat page_num)) as [-> | Hne].
    + intros _. lia.
    + rewrite list_lookup_insert_ne by congruence.
      intros Hi. apply Hinv in Hi. lia.
Qed.

Lemma pager_step_inv p op p' :
  resident_below_num_pages p ->
  pager_step malloc_page p op = Returns p' ->
  resident_below_num_pages p'
  /\ num_pages p <= num_pages p'
  /\ (forall n, op = OpGetPage n -> n + 1 <= num_pages p').
Proof.
  intros Hinv H. destruct op as [n | n page | n]; cbn [pager_step] in H.
  - bind_inv H. destruct r as [pg p1]. injection H as <-.
    apply get_page_step in Hstep as (? & ? & ?); [|exact Hinv].
    repeat split; try assumption. intros m [= <-]. assumption.
  - bind_inv H. apply pages_at_inv in Hstep as [Hn Hslot].
    destruct r as [old|]; [|discriminate]. injection H as <-.
    split; [|split; [cbn; lia | discriminate]].
    intros i pg. cbn [pages set_page num_pages].
    destruct (decide (i = Z.to_nat n)) as [-> | Hne].
    + intros _.
      destruct (pages p !! Z.to_nat n) as [[pg0|]|] eqn:Hp; try discriminate.
      apply Hinv in Hp. exact Hp.
    + rewrite list_lookup_insert_ne by congruence. apply Hinv.
  - unfold pager_flush in H. bind_inv H.
    destruct r as [page|]; [|discriminate].
    destruct (file_write _ _ _) as [f'|]; [|discriminate]. injection H as <-.
    split; [exact Hinv|]. split; [cbn; lia | discriminate].
Qed.

Lemma pager_run_inv p ops p' :
  resident_below_num_pages p ->
  pager_run malloc_page p ops = Returns p' ->
  resident_below_num_pages p'
  /\ num_pages p <= num_pages p'
  /\ (forall n, OpGetPage n ∈ ops -> n + 1 <= num_pages p').
Proof.
  revert p. induction ops as [|op ops IH]; intros p Hinv H; cbn [pager_run] in H.
  - injection H as <-. split; [exact Hinv|]. split; [lia|].
    intros n Hin. apply elem_of_nil in Hin. contradiction.
  - bind_inv H. apply pager_step_inv in Hstep as (Hinv1 & Hle1 & Hget1); [|exact Hinv].
    apply IH in H as (Hinv2 & Hle2 & Hget2); [|exact Hinv1].
    split; [exact Hinv2|]. split; [lia|].
    intros n Hin. apply elem_of_cons in Hin as [<- | Hin].
    + specialize (Hget1 n eq_refl). lia.
    + auto.
Qed.

(** C9. From the pager that [pager_open] returns, along every sequence
    of operations that return, [num_pages] never decreases, and it is at
    least one more than every page number fetched through [get_page]. *)
Theorem num_pages_monotone_and_covers_fetched
    (f : option File) (p0 p1 p2 : Pager) (ops1 ops2 : list PagerOp) :
  pager_open f = Returns p0 ->
  pager_run malloc_page p0 ops1 = Returns p1 ->
  pager_run malloc_page p1 ops2 = Returns p2 ->
  num_pages p0 <= num_pages p1 <= num_pages p2
  /\ (forall n, OpGetPage n ∈ ops1 ++ ops2 -> 1 + n <= num_pages p2).
Proof.
  intros Hopen H1 H2. apply pager_open_resident in Hopen.
  apply pager_run_inv in H1 as (Hinv1 & Hle1 & Hget1); [|exact Hopen].
  apply pager_run_inv in H2 as (Hinv2 & Hle2 & Hget2); [|exact Hinv1].
  split; [lia|]. intros n Hin. apply elem_of_app in Hin as [Hin | Hin].
  - apply Hget1 in Hin. lia.
  - apply Hget2 in Hin. lia.
Qed.

End PagerProperties.

Lemma pager_open_empty_file : pager_open (Some empty_file) = Returns new_pager.
Proof. reflexivity. Qed.

Lemma get_page_miss_keeps_block_bytes_witness :
  exists bs page pager',
    get_page stale_block new_pager 0 = Returns (page, pager')
    /\ (bs = [] \/ bs = take (Z.to_nat PAGE_SIZE)
                          (drop (Z.to_nat (0 * PAGE_SIZE))
                                (contents (file_descriptor new_pager))))
    /\ page = bs ++ drop (length bs) (stale_block 0)
    /\ (Z.of_nat (length (contents (file_descriptor new_pager)))
        <= 0 * PAGE_SIZE -> page = stale_block 0).
Proof.
  apply (get_page_miss_keeps_block_bytes stale_block new_pager 0); reflexivity.
Defined.

(** C8 (as stated) fails: with an allocator that hands out a used block,
    fetching page 0 of an empty file returns that block, whose bytes are
    0xAA and not zero. *)
Lemma get_page_not_zero_filled :
  exists page pager',
    pages_at new_pager 0 = Returns None
    /\ get_page stale_block new_pager 0 = Returns (page, pager')
    /\ page !! 0%nat = Some 170
    /\ page <> zero_page.
Proof.
  eexists. eexists. split; [reflexivity|]. split; [reflexivity|].
  split; [reflexivity|]. discriminate.
Qed.

Lemma num_pages_monotone_and_covers_fetched_witness :
  num_pages new_pager <= num_pages new_pager <= num_pages fetched_pager
  /\ (forall n,
        OpGetPage n ∈ [] ++ [OpGetPage 2; OpWrite 2 zero_page; OpGetPage 0] ->
        1 + n <= num_pages fetched_pager).
Proof.
  apply (num_pages_monotone_and_covers_fetched stale_block
           (Some empty_file) new_pager new_pager fetched_pager
           [] [OpGetPage 2; OpWrite 2 zero_page; OpGetPage 0]);
    reflexivity.
Defined.

(** ** Binary search in a leaf *)

Section TableProperties.

Variable malloc_page : Z -> list Z.

Lemma load_int_Returns mem off :
  0 <= off -> off + SIZEOF_INT <= Z.of_nat (length mem) ->
  exists k, load_int mem off = Returns k.
Proof.
  intros H0 H1. unfold load_int.
  rewrite load_bytes_Returns by (unfold SIZEOF_INT in *; lia).
  rewrite bind_Returns. eauto.
Qed.

(** Every key slot of a page-sized leaf can be read. *)
Lemma leaf_node_key_readable node i :
  length node = Z.to_nat PAGE_SIZE -> 0 <= i <= LEAF_NODE_MAX_CELLS ->
  exists k, load_int node (leaf_node_key i) = Returns k.
Proof.
  intros Hlen Hi. apply load_int_Returns.
  - unfold leaf_node_key, leaf_node_cell.
    change LEAF_NODE_HEADER_SIZE with 16. change LEAF_NODE_CELL_SIZE with 301. lia.
  - rewrite Hlen. unfold leaf_node_key, leaf_node_cell.
    change LEAF_NODE_HEADER_SIZE with 16. change LEAF_NODE_CELL_SIZE with 301.
    change LEAF_NODE_MAX_CELLS with 13 in Hi. change SIZEOF_INT with 4.
    change (Z.of_nat (Z.to_nat PAGE_SIZE)) with 4096. lia.
Qed.

(** The loop, from a state in which every key left of [lo] is smaller
    than [key] and every key from [hi] on is greater, returns either a slot
    holding [key] or the slot that separates the smaller keys from the
    greater ones. *)
Lemma leaf_node_find_loop_spec node n key :
  length node = Z.to_nat PAGE_SIZE ->
  0 <= n <= LEAF_NODE_MAX_CELLS ->
  leaf_keys_sorted node n ->
  forall fuel lo hi,
    0 <= lo <= hi -> hi <= n ->
    (Z.to_nat (hi - lo) <= fuel)%nat ->
    (forall i ki, 0 <= i < lo ->
                  load_int node (leaf_node_key i) = Returns ki -> ki < key) ->
    (forall i ki, hi <= i < n ->
                  load_int node (leaf_node_key i) = Returns ki -> key < ki) ->
    exists c,
      leaf_node_find_loop fuel node key lo hi = Returns c
      /\ 0 <= c <= n
      /\ ((c < n /\ load_int node (leaf_node_key c) = Returns key)
          \/ ((forall i ki, 0 <= i < c ->
                 load_int node (leaf_node_key i) = Returns ki -> ki < key)
              /\ (forall i ki, c <= i < n ->
                    load_int node (leaf_node_key i) = Returns ki -> key < ki))).
Proof.
  intros Hlen Hn Hsorted.
  induction fuel as [|fuel IH]; intros lo hi Hlo Hhi Hfuel Hleft Hright.
  - assert (hi = lo) as -> by lia. exists lo. cbn [leaf_node_find_loop].
    rewrite bool_decide_eq_false_2 by tauto.
    split; [reflexivity|]. split; [lia|]. right. auto.
  - cbn [leaf_node_find_loop]. case_bool_decide as Hne.
    2:{ assert (hi = lo) as -> by (destruct (decide (hi = lo)); tauto).
        exists lo. split; [reflexivity|]. split; [lia|]. right. auto. }
    set (index := (lo + hi) `quot` 2).
    assert (Hidx : lo <= index < hi).
    { subst index. rewrite Z.quot_div_nonneg by lia.
      pose proof (Z.div_mod (lo + hi) 2 ltac:(lia)).
      pose proof (Z.mod_pos_bound (lo + hi) 2 ltac:(lia)). lia. }
    destruct (leaf_node_key_readable node index Hlen ltac:(lia)) as [k Hk].
    rewrite Hk, bind_Returns.
    case_bool_decide as Heq.
    + exists index. split; [reflexivity|]. split; [lia|]. left.
      split; [lia|]. rewrite Hk, Heq. reflexivity.
    + case_bool_decide as Hlt.
      * apply IH; [lia | lia | lia | exact Hleft |].
        intros i ki Hi Hki.
        destruct (decide (i = index)) as [-> | Hni].
        -- rewrite Hk in Hki. injection Hki as <-. exact Hlt.
        -- destruct (decide (i < hi)) as [Hih | Hih].
           ++ pose proof (Hsorted index i k ki ltac:(lia) ltac:(lia) ltac:(lia) Hk Hki).
              lia.
           ++ apply (Hright i ki); [lia | exact Hki].
      * apply IH; [lia | lia | lia | | exact Hright].
        intros i ki Hi Hki.
        destruct (decide (i = index)) as [-> | Hni].
        -- rewrite Hk in Hki. injection Hki as <-. lia.
        -- destruct (decide (i < lo)) as [Hil | Hil].
           ++ apply (Hleft i ki); [lia | exact Hki].
           ++ pose proof (Hsorted i index ki k ltac:(lia) ltac:(lia) ltac:(lia) Hki Hk).
              lia.
Qed.

Lemma leaf_node_find_spec fuel table page_num_ key node pager1 n :
  get_page malloc_page (pager table) page_num_ = Returns (node, pager1) ->
  length node = Z.to_nat PAGE_SIZE ->
  load_int node leaf_node_num_cells = Returns n ->
  0 <= n <= LEAF_NODE_MAX_CELLS ->
  leaf_keys_sorted node n ->
  (Z.to_nat n <= fuel)%nat ->
  exists c,
    leaf_node_find malloc_page fuel table page_num_ key
    = Returns ({| page_num := page_num_; cell_num := c; end_of_table := None |},
               set_pager table pager1)
    /\ found_slot node n key c.
Proof.
  intros Hget Hlen Hcells Hn Hsorted Hfuel.
  destruct (leaf_node_find_loop_spec node n key Hlen Hn Hsorted fuel 0 n)
    as (c & Hloop & Hc & Hres); [lia | lia | lia | intros; lia | intros; lia |].
  exists c. split.
  { unfold leaf_node_find. rewrite Hget, bind_Returns. cbn beta iota.
    rewrite Hcells, bind_Returns, Hloop, bind_Returns. reflexivity. }
  split; [exact Hc|]. split.
  - intros i Hi Hki. destruct Hres as [[Hcn Hck] | [Hl Hr]].
    + destruct (Z.lt_trichotomy c i) as [Hlt | [Heq | Hgt]]; [|exact Heq|].
      * pose proof (Hsorted c i key key ltac:(lia) ltac:(lia) ltac:(lia) Hck Hki). lia.
      * pose proof (Hsorted i c key key ltac:(lia) ltac:(lia) ltac:(lia) Hki Hck). lia.
    + destruct (decide (i < c)) as [Hlt | Hge].
      * pose proof (Hl i key ltac:(lia) Hki). lia.
      * pose proof (Hr i key ltac:(lia) Hki). lia.
  - intros Habsent i ki Hi Hki. destruct Hres as [[Hcn Hck] | [Hl Hr]].
    + exfalso. apply (Habsent c); [lia | exact Hck].
    + split; intros Hic; [apply (Hl i ki) | apply (Hr i ki)]; auto; lia.
Qed.

(** C5. In a leaf page whose keys are strictly ascending, with enough
    fuel for the loop, [leaf_node_find] returns a cursor on the slot that
    holds the key when it is present, and otherwise on the smallest slot
    whose key is greater than the key searched (the cell count when there
    is none): every slot before it has a smaller key and every slot from
    it on a greater one. *)
Theorem leaf_node_find_lower_bound
    (fuel : nat) (table : Table) (page_num_ key : Z)
    (node : list Z) (pager1 : Pager) (n : Z) :
  get_page malloc_page (pager table) page_num_ = Returns (node, pager1) ->
  length node = Z.to_nat PAGE_SIZE ->
  load_int node leaf_node_num_cells = Returns n ->
  0 <= n <= LEAF_NODE_MAX_CELLS ->
  leaf_keys_sorted node n ->
  (Z.to_nat n <= fuel)%nat ->
  exists cursor table',
    leaf_node_find malloc_page fuel table page_num_ key = Returns (cursor, table')
    /\ page_num cursor = page_num_
    /\ 0 <= cell_num cursor <= n
    /\ (forall i, 0 <= i < n ->
          load_int node (leaf_node_key i) = Returns key -> cell_num cursor = i)
    /\ ((forall i, 0 <= i < n ->
           load_int node (leaf_node_key i) <> Returns key) ->
        forall i ki, 0 <= i < n ->
          load_int node (leaf_node_key i) = Returns ki ->
          (i < cell_num cursor -> ki < key) /\ (cell_num cursor <= i -> key < ki)).
Proof.
  intros Hget Hlen Hcells Hn Hsorted Hfuel.
  destruct (leaf_node_find_spec fuel table page_num_ key node pager1 n
              Hget Hlen Hcells Hn Hsorted Hfuel) as (c & Hfind & Hc & Hpresent & Habsent).
  eexists. eexists. split; [exact Hfind|]. cbn [page_num cell_num].
  split; [reflexivity|]. split; [exact Hc|]. split; [exact Hpresent | exact Habsent].
Qed.

(** ** Insertion *)

(** Fetching a page a second time returns the same page and changes
    nothing. *)
Lemma get_page_again pager page_num_ node pager1 :
  length (pages pager) = Z.to_nat TABLE_MAX_PAGES ->
  get_page malloc_page pager page_num_ = Returns (node, pager1) ->
  get_page malloc_page pager1 page_num_ = Returns (node, pager1)
  /\ length (pages pager1) = Z.to_nat TABLE_MAX_PAGES.
Proof.
  intros Hlen H. apply get_page_inv in H as [Hn [[Hp ->] | [Hp ->]]].
  - split; [|exact Hlen]. apply get_page_hit; assumption.
  - split.
    + apply get_page_hit; [exact Hn|].
      cbn [pages set_num_pages set_page].
      apply list_lookup_insert_eq. rewrite Hlen. lia.
    + cbn [pages set_num_pages set_page]. rewrite length_insert. exact Hlen.
Qed.

(** C3 (amended). When the root is a leaf that holds fewer than the
    maximum number of cells, with strictly ascending keys, and one of its
    cells holds the key of the row, [execute_insert] returns
    [EXECUTE_DUPLICATE_KEY]; the table it leaves is the table as fetching
    the root left it, and the root fetched again is the same node, byte for
    byte. *)
Theorem execute_insert_duplicate_key
    (fuel : nat) (statement : Statement) (table : Table)
    (node : list Z) (pager1 : Pager) (n slot : Z) :
  length (pages (pager table)) = Z.to_nat TABLE_MAX_PAGES ->
  get_page malloc_page (pager table) (root_page_num table) = Returns (node, pager1) ->
  length node = Z.to_nat PAGE_SIZE ->
  get_node_type node = Returns (NodeType_value NODE_LEAF) ->
  load_int node leaf_node_num_cells = Returns n ->
  0 <= n < LEAF_NODE_MAX_CELLS ->
  leaf_keys_sorted node n ->
  0 <= slot < n ->
  load_int node (leaf_node_key slot)
  = Returns (to_signed 32 (id (row_to_insert statement))) ->
  (Z.to_nat n <= fuel)%nat ->
  execute_insert malloc_page fuel statement table
  = Returns (EXECUTE_DUPLICATE_KEY, set_pager table pager1)
  /\ get_page malloc_page pager1 (root_page_num table) = Returns (node, pager1).
Proof.
  intros Hwf Hget Hlen Htype Hcells Hn Hsorted Hslot Hkey Hfuel.
  destruct (get_page_again _ _ _ _ Hwf Hget) as [Hagain _].
  split; [|exact Hagain].
  set (key := to_signed 32 (id (row_to_insert statement))) in *.
  destruct (leaf_node_find_spec fuel (set_pager (set_pager table pager1) pager1)
              (root_page_num table) key node pager1 n)
    as (c & Hfind & Hc & Hpresent & _); try assumption; [lia|].
  assert (c = slot) as -> by (apply Hpresent; [lia | exact Hkey]).
  unfold execute_insert. rewrite Hget, bind_Returns. cbn beta iota.
  rewrite Hcells, bind_Returns.
  rewrite (bool_decide_eq_false_2 (n >= LEAF_NODE_MAX_CELLS)) by lia.
  unfold table_find. cbn [pager set_pager root_page_num].
  rewrite Hagain, bind_Returns. cbn beta iota.
  rewrite Htype, bind_Returns.
  rewrite (bool_decide_eq_true_2 (_ = _)) by reflexivity.
  cbn [root_page_num set_pager] in Hfind. fold key. rewrite Hfind, bind_Returns.
  cbn beta iota. cbn [cell_num].
  rewrite (bool_decide_eq_true_2 (slot < n)) by lia.
  rewrite Hkey, bind_Returns.
  rewrite (bool_decide_eq_true_2 (key = key)) by reflexivity.
  reflexivity.
Qed.

End TableProperties.

(** ** Insert and scan on every table *)

Section Defects.

Variable malloc_page : Z -> list Z.

(** [execute_insert] writes nothing: whatever it returns, the table it
    leaves is the table as fetching the root left it. *)
Lemma execute_insert_only_fetches fuel statement table res table' :
  length (pages (pager table)) = Z.to_nat TABLE_MAX_PAGES ->
  execute_insert malloc_page fuel statement table = Returns (res, table') ->
  exists node pager1,
    get_page malloc_page (pager table) (root_page_num table) = Returns (node, pager1)
    /\ table' = set_pager table pager1.
Proof.
  intros Hwf H. unfold execute_insert in H.
  apply bind_Returns_inv in H as ([node pager1] & Hget & H).
  exists node, pager1. split; [exact Hget|].
  destruct (get_page_again _ _ _ _ _ Hwf Hget) as [Hagain _].
  apply bind_Returns_inv in H as (n & Hcells & H).
  destruct (bool_decide (n >= LEAF_NODE_MAX_CELLS)).
  { injection H as _ <-. reflexivity. }
  apply bind_Returns_inv in H as ([cursor table2] & Hfind & H).
  assert (table2 = set_pager table pager1) as ->.
  { unfold table_find in Hfind. cbn [pager set_pager root_page_num] in Hfind.
    rewrite Hagain, bind_Returns in Hfind. cbn beta iota in Hfind.
    apply bind_Returns_inv in Hfind as (t & Htype & Hfind).
    destruct (bool_decide (t = NodeType_value NODE_LEAF)); [|discriminate].
    unfold leaf_node_find in Hfind. cbn [pager set_pager] in Hfind.
    rewrite Hagain, bind_Returns in Hfind. cbn beta iota in Hfind.
    apply bind_Returns_inv in Hfind as (n' & _ & Hfind).
    apply bind_Returns_inv in Hfind as (c & _ & Hfind).
    injection Hfind as _ <-. reflexivity. }
  destruct (bool_decide (cell_num cursor < n)).
  - apply bind_Returns_inv in H as (k & _ & H).
    destruct (bool_decide (k = _)); injection H as _ <-; reflexivity.
  - injection H as _ <-. reflexivity.
Qed.
(** The loop of [execute_select] never leaves a cell: on a cursor that is
    not at the end and whose row can be read, no amount of fuel lets it
    return. *)
Lemma execute_select_loop_never_returns cursor table page source row :
  end_of_table cursor = Some false ->
  cursor_value malloc_page cursor table = Returns (page, source, table) ->
  deserialize_row page source = Returns row ->
  forall fuel printed,
    execute_select_loop malloc_page fuel cursor table printed = OutOfFuel.
Proof.
  intros Hend Hvalue Hrow. induction fuel as [|fuel IH]; intros printed.
  - cbn [execute_select_loop]. rewrite Hend. reflexivity.
  - cbn [execute_select_loop]. rewrite Hend, Hvalue, bind_Returns.
    cbn beta iota. rewrite Hrow, bind_Returns. apply IH.
Qed.

End Defects.

(** ** Concrete tables *)

Lemma db_open_empty_file : db_open stale_block (Some empty_file) = Returns new_table.
Proof. reflexivity. Qed.

Lemma sorted_leaf_keys_sorted : leaf_keys_sorted sorted_leaf 3.
Proof.
  intros i j ki kj Hi Hij Hj Hki Hkj.
  assert (Hi' : i = 0 \/ i = 1) by lia.
  assert (Hj' : j = 1 \/ j = 2) by lia.
  destruct Hi' as [-> | ->], Hj' as [-> | ->]; try lia;
    vm_compute in Hki, Hkj; injection Hki as <-; injection Hkj as <-; lia.
Qed.

Lemma leaf_node_find_lower_bound_witness :
  exists cursor table',
    leaf_node_find stale_block 3 (table_of_page sorted_leaf) 0 33619968
    = Returns (cursor, table')
    /\ page_num cursor = 0
    /\ 0 <= cell_num cursor <= 3
    /\ (forall i, 0 <= i < 3 ->
          load_int sorted_leaf (leaf_node_key i) = Returns 33619968 ->
          cell_num cursor = i)
    /\ ((forall i, 0 <= i < 3 ->
           load_int sorted_leaf (leaf_node_key i) <> Returns 33619968) ->
        forall i ki, 0 <= i < 3 ->
          load_int sorted_leaf (leaf_node_key i) = Returns ki ->
          (i < cell_num cursor -> ki < 33619968)
          /\ (cell_num cursor <= i -> 33619968 < ki)).
Proof.
  apply (leaf_node_find_lower_bound stale_block 3 (table_of_page sorted_leaf)
           0 33619968 sorted_leaf (pager (table_of_page_loaded sorted_leaf)) 3).
  - reflexivity.
  - reflexivity.
  - reflexivity.
  - vm_compute. split; discriminate.
  - exact sorted_leaf_keys_sorted.
  - vm_compute. lia.
Defined.

Lemma execute_insert_duplicate_key_witness :
  execute_insert stale_block 3
    (insert_statement (make_row 33619968 [98] [98; 64; 120]))
    (table_of_page sorted_leaf)
  = Returns (EXECUTE_DUPLICATE_KEY,
             set_pager (table_of_page sorted_leaf)
                       (pager (table_of_page_loaded sorted_leaf)))
  /\ get_page stale_block (pager (table_of_page_loaded sorted_leaf))
       (root_page_num (table_of_page sorted_leaf))
     = Returns (sorted_leaf, pager (table_of_page_loaded sorted_leaf)).
Proof.
  apply (execute_insert_duplicate_key stale_block 3
           (insert_statement (make_row 33619968 [98] [98; 64; 120]))
           (table_of_page sorted_leaf) sorted_leaf
           (pager (table_of_page_loaded sorted_leaf)) 3 1).
  - reflexivity.
  - reflexivity.
  - reflexivity.
  - reflexivity.
  - reflexivity.
  - vm_compute. split; [discriminate | reflexivity].
  - exact sorted_leaf_keys_sorted.
  - lia.
  - reflexivity.
  - vm_compute. lia.
Defined.

(** C3 (as stated) fails. A full root leaf holds the key 50462976 in its
    first cell, and inserting a row with that key returns
    [EXECUTE_TABLE_FULL]: the capacity test comes first. And in a leaf
    whose keys are not ascending the search can miss a key that is there:
    16777216 is in the first cell, and the insert returns
    [EXECUTE_SUCCESS]. *)
Lemma execute_insert_present_key_not_duplicate :
  (load_int full_leaf leaf_node_num_cells = Returns LEAF_NODE_MAX_CELLS
   /\ load_int full_leaf (leaf_node_key 0) = Returns 50462976
   /\ execute_insert stale_block 13
        (insert_statement (make_row 50462976 [97] [97; 64; 120]))
        (table_of_page full_leaf)
      = Returns (EXECUTE_TABLE_FULL, table_of_page_loaded full_leaf))
  /\ (load_int unsorted_leaf leaf_node_num_cells = Returns 2
      /\ load_int unsorted_leaf (leaf_node_key 0) = Returns 16777216
      /\ execute_insert stale_block 13
           (insert_statement (make_row 16777216 [97] [97; 64; 120]))
           (table_of_page unsorted_leaf)
         = Returns (EXECUTE_SUCCESS, table_of_page_loaded unsorted_leaf)).
Proof. repeat split; reflexivity. Qed.

(** C1. On a new database, [execute_insert] of the row (1, "a", "a@x")
    returns [EXECUTE_SUCCESS] and leaves the table as it was: the root leaf
    still counts no cell and the row is in no page. *)
Theorem execute_insert_success_without_insertion :
  db_open stale_block (Some empty_file) = Returns new_table
  /\ pages (pager new_table) !! 0%nat = Some (Some new_root)
  /\ load_int new_root leaf_node_num_cells = Returns 0
  /\ execute_insert stale_block 1 (insert_statement row_1) new_table
     = Returns (EXECUTE_SUCCESS, new_table).
Proof. repeat split; reflexivity. Qed.

(** What the unused [leaf_node_insert] would have done at the cursor that
    [table_find] returns there: one cell, holding the key 1. *)
Lemma leaf_node_insert_on_new_table :
  exists table' node,
    leaf_node_insert stale_block
      {| page_num := 0; cell_num := 0; end_of_table := None |}
      new_table 1 row_1 = Returns table'
    /\ pages (pager table') !! 0%nat = Some (Some node)
    /\ load_int node leaf_node_num_cells = Returns 1
    /\ load_int node (leaf_node_key 0) = Returns 1.
Proof. eexists. eexists. repeat split; reflexivity. Qed.

(** Inserting the key 5 returns [EXECUTE_SUCCESS] and leaves the table as
    it was, so that inserting it a second time does the same. *)
Lemma execute_insert_twice_both_succeed :
  execute_insert stale_block 1 (insert_statement row_5) new_table
  = Returns (EXECUTE_SUCCESS, new_table).
Proof. reflexivity. Qed.

(** C2. After the inserts of (1, "a", "a@x"), (3, "c", "c@x") and
    (2, "b", "b@x") into a new database, each returning
    [EXECUTE_SUCCESS], [execute_select] prints no row at all; and on a
    table whose root leaf holds three cells it never reaches the end of
    the table, whatever the fuel: the cursor is never advanced. *)
Theorem execute_select_misses_inserted_rows :
  execute_insert stale_block 1 (insert_statement row_1) new_table
  = Returns (EXECUTE_SUCCESS, new_table)
  /\ execute_insert stale_block 1 (insert_statement row_3) new_table
     = Returns (EXECUTE_SUCCESS, new_table)
  /\ execute_insert stale_block 1 (insert_statement row_2) new_table
     = Returns (EXECUTE_SUCCESS, new_table)
  /\ execute_select stale_block 1 select_statement new_table
     = Returns (EXECUTE_SUCCESS, [], new_table)
  /\ (forall fuel,
        execute_select stale_block fuel select_statement
          (table_of_page sorted_leaf) = OutOfFuel).
Proof.
  repeat split; try reflexivity.
  intros fuel. unfold execute_select.
  assert (Hstart : table_start stale_block (table_of_page sorted_leaf)
                   = Returns (first_cell_cursor, table_of_page_loaded sorted_leaf))
    by reflexivity.
  rewrite Hstart, bind_Returns. cbn beta iota.
  destruct (deserialize_row sorted_leaf (leaf_node_value 0)) as [row| | |] eqn:Hrow;
    try (vm_compute in Hrow; discriminate).
  rewrite (execute_select_loop_never_returns stale_block first_cell_cursor
             (table_of_page_loaded sorted_leaf) sorted_leaf (leaf_node_value 0) row);
    reflexivity || assumption.
Qed.

(** C6. [leaf_node_cell] adds the cell number to the sum of the header
    size and the cell size: cell [i] starts at byte [317 + i], never at
    [LEAF_NODE_HEADER_SIZE + i * LEAF_NODE_CELL_SIZE], and the next cell
    starts one byte further, inside it. *)
Theorem leaf_node_cell_not_packed (i : Z) :
  leaf_node_cell i = 317 + i
  /\ leaf_node_cell i <> LEAF_NODE_HEADER_SIZE + i * LEAF_NODE_CELL_SIZE
  /\ leaf_node_cell i < leaf_node_cell (i + 1)
     < leaf_node_cell i + LEAF_NODE_CELL_SIZE.
Proof.
  unfold leaf_node_cell.
  change LEAF_NODE_HEADER_SIZE with 16. change LEAF_NODE_CELL_SIZE with 301.
  lia.
Qed.

(** C10. Serializing the row (1, "a", "a@x") into the value region of
    cell 0 of a zeroed page changes the key of cell 1, from 0 to 16777216:
    the value region of cell 0 is bytes 321 to 617, and cell 1 starts at
    byte 318. *)
Theorem serialize_row_alters_neighbouring_cell :
  exists node',
    serialize_row row_1 zero_page (leaf_node_value 0) = Returns node'
    /\ leaf_node_value 0 = 321
    /\ leaf_node_cell 1 = 318
    /\ load_int zero_page (leaf_node_key 1) = Returns 0
    /\ load_int node' (leaf_node_key 1) = Returns 16777216.
Proof. eexists. repeat split; reflexivity. Qed.

(** * Further properties of the pager *)

Section PagerFurther.

Variable malloc_page : Z -> list Z.

(** X1. [pager_open] returns a pager exactly when the device works and the
    file length is a whole number of pages; otherwise the process exits. *)
Theorem pager_open_returns_iff (fd : File) :
  (exists p, pager_open (Some fd) = Returns p)
  <-> io_error fd = false
      /\ Z.of_nat (length (contents fd)) `mod` PAGE_SIZE = 0.
Proof.
  unfold pager_open, file_seek_end. destruct (io_error fd).
  - split; [|intros [[=] _]]. intros [p Hp].
    rewrite bool_decide_eq_true_2 in Hp by (vm_compute; discriminate).
    discriminate.
  - rewrite Z.rem_mod_nonneg by (unfold PAGE_SIZE; lia).
    split.
    + intros [p Hp]. split; [reflexivity|].
      case_bool_decide as Hm; [discriminate|].
      destruct (decide (Z.of_nat (length (contents fd)) `mod` PAGE_SIZE = 0)); tauto.
    + intros [_ Hm]. rewrite bool_decide_eq_false_2 by (rewrite Hm; tauto). eauto.
Qed.

(** What [pager_open] returns for a file of whole pages shorter than 2 GiB. *)
Lemma pager_open_Returns fd :
  io_error fd = false ->
  Z.of_nat (length (contents fd)) `mod` PAGE_SIZE = 0 ->
  Z.of_nat (length (contents fd)) < 2 ^ 31 ->
  pager_open (Some fd)
  = Returns {| file_descriptor := fd;
               file_length := Z.of_nat (length (contents fd));
               num_pages := Z.of_nat (length (contents fd)) `div` PAGE_SIZE;
               pages := replicate (Z.to_nat TABLE_MAX_PAGES) None |}.
Proof.
  intros Hio Hm Hlt. unfold pager_open, file_seek_end. rewrite Hio.
  rewrite Z.rem_mod_nonneg by (unfold PAGE_SIZE; lia).
  rewrite bool_decide_eq_false_2 by (rewrite Hm; tauto).
  rewrite Z.quot_div_nonneg by (unfold PAGE_SIZE; lia).
  rewrite !to_signed_small; [reflexivity | lia | | lia |].
  - change (2 ^ (32 - 1)) with (2 ^ 31).
    pose proof (Z.div_pos (Z.of_nat (length (contents fd))) PAGE_SIZE
                  ltac:(lia) ltac:(unfold PAGE_SIZE; lia)).
    pose proof (Z.div_le_upper_bound (Z.of_nat (length (contents fd))) PAGE_SIZE
                  (Z.of_nat (length (contents fd)))
                  ltac:(unfold PAGE_SIZE; lia) ltac:(unfold PAGE_SIZE; lia)).
    lia.
  - change (2 ^ (32 - 1)) with (2 ^ 31). lia.
Qed.

(** X2. Fetching a page a second time returns the same page and leaves
    the pager as it is: there is one buffer per page number. *)
Theorem get_page_twice (pager : Pager) (page_num : Z) (page : list Z) (pager1 : Pager) :
  length (pages pager) = Z.to_nat TABLE_MAX_PAGES ->
  get_page malloc_page pager page_num = Returns (page, pager1) ->
  get_page malloc_page pager1 page_num = Returns (page, pager1).
Proof. intros Hwf H. apply (get_page_again malloc_page _ _ _ _ Hwf H). Qed.

(** X3. [get_page] leaves the file, the recorded file length and every
    other slot of the page array as they are. *)
Theorem get_page_frame (pager : Pager) (page_num : Z) (page : list Z) (pager1 : Pager) :
  get_page malloc_page pager page_num = Returns (page, pager1) ->
  file_descriptor pager1 = file_descriptor pager
  /\ file_length pager1 = file_length pager
  /\ length (pages pager1) = length (pages pager)
  /\ (forall i : nat, i <> Z.to_nat page_num ->
        pages pager1 !! i = pages pager !! i).
Proof.
  intros H. apply get_page_inv in H as [Hn [[Hp ->] | [Hp ->]]].
  - auto.
  - cbn [file_descriptor file_length pages set_num_pages set_page].
    rewrite length_insert. repeat split; try reflexivity.
    intros i Hi. apply list_lookup_insert_ne. congruence.
Qed.

(** X4. The ways [get_page] does not return: it exits for a page number
    above [TABLE_MAX_PAGES], and for a page that is not resident, lies
    within the known file pages and cannot be read; it is undefined for a
    negative page number and for [TABLE_MAX_PAGES] itself. *)
Theorem get_page_failures (pager : Pager) (page_num : Z) :
  (get_page malloc_page pager page_num = Exits
   <-> page_num > TABLE_MAX_PAGES
       \/ (0 <= page_num < TABLE_MAX_PAGES
           /\ default None (pages pager !! Z.to_nat page_num) = None
           /\ page_num <= known_file_pages pager
           /\ io_error (file_descriptor pager) = true))
  /\ (get_page malloc_page pager page_num = Undefined
      <-> page_num < 0 \/ page_num = TABLE_MAX_PAGES)
  /\ get_page malloc_page pager page_num <> OutOfFuel.
Proof.
  pose proof (eq_refl : TABLE_MAX_PAGES = 100) as HM.
  destruct (decide (page_num > TABLE_MAX_PAGES)) as [Hgt | Hle].
  { rewrite get_page_exits_above_max by exact Hgt.
    split; [tauto|]. split; [|discriminate].
    split; [discriminate | intros; exfalso; lia]. }
  destruct (decide (0 <= page_num < TABLE_MAX_PAGES)) as [Hin | Hout].
  2:{ assert (Hu : get_page malloc_page pager page_num = Undefined).
      { unfold get_page, pages_at.
        rewrite (bool_decide_eq_false_2 (page_num > TABLE_MAX_PAGES)) by exact Hle.
        rewrite (bool_decide_eq_false_2 (0 <= page_num < TABLE_MAX_PAGES)) by exact Hout.
        reflexivity. }
      rewrite Hu. split; [split; [discriminate | intros; exfalso; lia]|].
      split; [|discriminate]. split; [lia | reflexivity]. }
  destruct (default None (pages pager !! Z.to_nat page_num)) as [pg|] eqn:Hslot.
  { assert (Hp : pages pager !! Z.to_nat page_num = Some (Some pg)).
    { destruct (pages pager !! Z.to_nat page_num) as [[?|]|]; cbn in Hslot; congruence. }
    rewrite (get_page_hit malloc_page pager page_num pg Hin Hp).
    split; [split; [discriminate | intros [? | (_ & [=] & _)]; exfalso; lia]|].
    split; [|discriminate]. split; [discriminate | intros; exfalso; lia]. }
  destruct (loaded_bytes pager page_num) as [bs|] eqn:Hb.
  { rewrite (get_page_miss malloc_page pager page_num bs Hin Hslot Hb). cbv zeta.
    split.
    - split; [discriminate|]. intros [? | (_ & _ & Hk & Hio)]; [exfalso; lia|].
      unfold loaded_bytes, file_read in Hb. fold (known_file_pages pager) in Hb.
      rewrite bool_decide_eq_true_2, Hio in Hb by exact Hk. discriminate.
    - split; [|discriminate]. split; [discriminate | intros; exfalso; lia]. }
  assert (Hk : page_num <= known_file_pages pager
               /\ io_error (file_descriptor pager) = true).
  { unfold loaded_bytes, file_read in Hb. fold (known_file_pages pager) in Hb.
    case_bool_decide; [|discriminate].
    destruct (io_error (file_descriptor pager)); [auto | discriminate]. }
  assert (He : get_page malloc_page pager page_num = Exits).
  { unfold get_page.
    rewrite (bool_decide_eq_false_2 (page_num > TABLE_MAX_PAGES)) by exact Hle.
    rewrite (pages_at_Returns _ _ Hin), bind_Returns, Hslot. cbv zeta.
    fold (known_file_pages pager).
    rewrite (bool_decide_eq_true_2 (page_num <= known_file_pages pager)) by tauto.
    unfold file_read. rewrite (proj2 Hk). reflexivity. }
  rewrite He. split; [split; [tauto | reflexivity]|].
  split; [|discriminate]. split; [discriminate | intros; exfalso; lia].
Qed.

Lemma Returns_inj {A} (a b : A) : Returns a = Returns b -> a = b.
Proof. congruence. Qed.

Lemma file_write_spec f off bs f' :
  file_write f off bs = Some f' -> 0 <= off ->
  io_error f = false /\ io_error f' = false
  /\ Z.of_nat (length (contents f'))
     = Z.max (Z.of_nat (length (contents f))) (off + Z.of_nat (length bs))
  /\ take (length bs) (drop (Z.to_nat off) (contents f')) = bs
  /\ (forall i : nat,
        Z.of_nat i < off \/ off + Z.of_nat (length bs) <= Z.of_nat i ->
        (i < length (contents f))%nat ->
        contents f' !! i = contents f !! i).
Proof.
  unfold file_write. destruct (io_error f); [discriminate|].
  intros [= <-] Hoff. cbn [contents io_error].
  set (old := contents f).
  set (padded := old ++ replicate (Z.to_nat off - length old) 0).
  assert (Hpad : length (take (Z.to_nat off) padded) = Z.to_nat off).
  { subst padded. rewrite length_take, length_app, length_replicate. lia. }
  split; [reflexivity|]. split; [reflexivity|]. split; [|split].
  - rewrite !length_app, Hpad, length_drop. lia.
  - rewrite drop_app_length' by (symmetry; exact Hpad). apply take_app_length.
  - intros i Hi Hlt. destruct Hi as [Hi | Hi].
    + rewrite lookup_app_l by lia. rewrite lookup_take_lt by lia.
      subst padded. apply lookup_app_l. exact Hlt.
    + rewrite lookup_app_r by lia. rewrite lookup_app_r by lia.
      rewrite lookup_drop, Hpad. f_equal. lia.
Qed.

(** X5. [pager_flush] returns exactly when the page number is inside the
    page array, the page is resident and the device works. *)
Theorem pager_flush_returns_iff (pager : Pager) (page_num : Z) :
  (exists pager', pager_flush pager page_num = Returns pager')
  <-> 0 <= page_num < TABLE_MAX_PAGES
      /\ (exists page, pages pager !! Z.to_nat page_num = Some (Some page))
      /\ io_error (file_descriptor pager) = false.
Proof.
  unfold pager_flush. split.
  - intros [p' H]. bind_inv H. apply pages_at_inv in Hstep as [Hn Hslot].
    destruct r as [page|]; [|discriminate].
    split; [exact Hn|]. split.
    + exists page.
      destruct (pages pager !! Z.to_nat page_num) as [[?|]|]; cbn in Hslot; congruence.
    + unfold file_write in H. destruct (io_error _); [discriminate | reflexivity].
  - intros (Hn & [page Hp] & Hio).
    rewrite (pages_at_Returns _ _ Hn), bind_Returns, Hp. cbn [default].
    unfold file_write. rewrite Hio. eauto.
Qed.

(** X6. After [pager_flush] the file holds the page at offset
    [page_num * PAGE_SIZE], every other byte of the file is as before, and
    the page array, [num_pages] and the recorded [file_length] are
    unchanged. *)
Theorem pager_flush_writes_page (pager : Pager) (page_num : Z) (pager' : Pager) :
  pager_flush pager page_num = Returns pager' ->
  exists page,
    pages pager !! Z.to_nat page_num = Some (Some page)
    /\ file_read (file_descriptor pager') (page_num * PAGE_SIZE)
         (Z.of_nat (length page)) = Some page
    /\ (forall i : nat,
          Z.of_nat i < page_num * PAGE_SIZE
          \/ page_num * PAGE_SIZE + Z.of_nat (length page) <= Z.of_nat i ->
          (i < length (contents (file_descriptor pager)))%nat ->
          contents (file_descriptor pager') !! i
          = contents (file_descriptor pager) !! i)
    /\ pages pager' = pages pager
    /\ num_pages pager' = num_pages pager
    /\ file_length pager' = file_length pager.
Proof.
  unfold pager_flush. intros H. bind_inv H.
  apply pages_at_inv in Hstep as [Hn Hslot].
  destruct r as [page|]; [|discriminate].
  destruct (file_write _ _ _) as [f'|] eqn:Hw; [|discriminate].
  injection H as <-. exists page.
  apply file_write_spec in Hw as (_ & Hio' & _ & Hread & Hframe);
    [|unfold PAGE_SIZE; lia].
  split.
  { destruct (pages pager !! Z.to_nat page_num) as [[?|]|]; cbn in Hslot; congruence. }
  cbn [file_descriptor set_file pages num_pages file_length].
  split; [|auto].
  unfold file_read. rewrite Hio', Nat2Z.id, Hread. reflexivity.
Qed.




End PagerFurther.

(** * Further properties of nodes, cursors and statements *)

Lemma load_int_store_other mem off bs mem' o :
  store_bytes mem off bs = Returns mem' ->
  o + SIZEOF_INT <= off \/ off + Z.of_nat (length bs) <= o ->
  load_int mem' o = load_int mem o.
Proof.
  intros H Hd. unfold load_int.
  rewrite (load_store_other _ _ _ _ o SIZEOF_INT H Hd). reflexivity.
Qed.

Lemma store_int_Returns mem off v :
  0 <= off -> off + SIZEOF_INT <= Z.of_nat (length mem) ->
  exists mem', store_int mem off v = Returns mem'.
Proof.
  intros H0 H1. unfold store_int. rewrite store_bytes_Returns; [eauto | exact H0 |].
  rewrite length_encode_le. change (Z.of_nat (Z.to_nat SIZEOF_INT)) with SIZEOF_INT. exact H1.
Qed.

(** X9. On a buffer of at least [LEAF_NODE_HEADER_SIZE] bytes,
    [initialize_leaf_node] returns a node of the same size whose type
    reads [NODE_LEAF] and whose cell count reads 0; the is-root and parent
    fields and every byte after the header are left as they were. *)
Theorem initialize_leaf_node_spec (node : list Z) :
  LEAF_NODE_HEADER_SIZE <= Z.of_nat (length node) ->
  exists node',
    initialize_leaf_node node = Returns node'
    /\ length node' = length node
    /\ get_node_type node' = Returns (NodeType_value NODE_LEAF)
    /\ load_int node' leaf_node_num_cells = Returns 0
    /\ (forall i : nat,
          IS_ROOT_OFFSET <= Z.of_nat i < LEAF_NODE_NUM_CELLS_OFFSET
          \/ LEAF_NODE_HEADER_SIZE <= Z.of_nat i ->
          node' !! i = node !! i).
Proof.
  intros Hlen. change LEAF_NODE_HEADER_SIZE with 16 in *.
  unfold initialize_leaf_node, set_node_type, get_node_type.
  change NODE_TYPE_OFFSET with 0. change leaf_node_num_cells with 12.
  change IS_ROOT_OFFSET with 4. change LEAF_NODE_NUM_CELLS_OFFSET with 12.
  destruct (store_int_Returns node 0 (NodeType_value NODE_LEAF)) as [n1 H1];
    [lia | change SIZEOF_INT with 4; lia |].
  pose proof H1 as Hl1. apply store_bytes_length in Hl1.
  destruct (store_int_Returns n1 12 0) as [n2 H2];
    [lia | change SIZEOF_INT with 4; lia |].
  pose proof H2 as Hl2. apply store_bytes_length in Hl2.
  exists n2. rewrite H1, bind_Returns. split; [exact H2|].
  split; [congruence|]. split; [|split].
  - unfold store_int in H2.
    rewrite (load_int_store_other _ _ _ _ 0 H2) by (change SIZEOF_INT with 4; lia).
    apply load_store_int in H1. rewrite H1. reflexivity.
  - apply load_store_int in H2. rewrite H2. reflexivity.
  - intros i Hi. unfold store_int in H1, H2.
    rewrite (store_bytes_frame _ _ _ _ i H2)
      by (rewrite length_encode_le; change (Z.to_nat SIZEOF_INT) with 4%nat; lia).
    rewrite (store_bytes_frame _ _ _ _ i H1)
      by (rewrite length_encode_le; change (Z.to_nat SIZEOF_INT) with 4%nat; lia).
    reflexivity.
Qed.

Section StatementsFurther.

Variable malloc_page : Z -> list Z.

(** X10. On an empty file, whatever the allocator leaves in the block,
    [db_open] returns a table whose root, page 0, is resident and is a
    leaf with no cell; [num_pages] is 1 and the file is still empty. *)
Theorem db_open_new_file (fd : File) :
  contents fd = [] -> io_error fd = false ->
  LEAF_NODE_HEADER_SIZE <= Z.of_nat (length (malloc_page 0)) ->
  exists table root,
    db_open malloc_page (Some fd) = Returns table
    /\ root_page_num table = 0
    /\ num_pages (pager table) = 1
    /\ pages (pager table) !! 0%nat = Some (Some root)
    /\ length root = length (malloc_page 0)
    /\ get_node_type root = Returns (NodeType_value NODE_LEAF)
    /\ load_int root leaf_node_num_cells = Returns 0
    /\ file_descriptor (pager table) = fd.
Proof.
  intros Hc Hio Hblock.
  destruct (initialize_leaf_node_spec (malloc_page 0) Hblock)
    as (root & Hinit & Hlen & Htype & Hcells & _).
  unfold db_open.
  rewrite (pager_open_Returns fd Hio) by (rewrite Hc; vm_compute; reflexivity).
  rewrite bind_Returns. cbn [num_pages]. rewrite Hc.
  change (Z.of_nat (length (@nil Z)) `div` PAGE_SIZE) with 0.
  rewrite (bool_decide_eq_true_2 (0 = 0)) by reflexivity.
  set (p := {| file_descriptor := fd; file_length := _; num_pages := 0; pages := _ |}).
  assert (Hb : loaded_bytes p 0 = Some []).
  { unfold loaded_bytes, file_read. cbn [file_length file_descriptor p].
    rewrite Hio, Hc. reflexivity. }
  rewrite (get_page_miss malloc_page p 0 [] ltac:(vm_compute; split; [discriminate | reflexivity])
             ltac:(reflexivity) Hb).
  cbv zeta. rewrite bind_Returns. cbn beta iota.
  change ([] ++ drop (length (@nil Z)) (malloc_page 0)) with (malloc_page 0).
  rewrite Hinit, bind_Returns.
  exists (set_pager {| num_rows := None; pager := p; root_page_num := 0 |}
            (set_page (set_num_pages (set_page p 0 (malloc_page 0))
                         (Z.max (num_pages p) (0 + 1))) 0 root)), root.
  split; [reflexivity|]. repeat split; try assumption; reflexivity.
Qed.


(** The first fetch of the root, and what later fetches return. *)
Lemma root_fetched table node pager1 :
  length (pages (pager table)) = Z.to_nat TABLE_MAX_PAGES ->
  get_page malloc_page (pager table) (root_page_num table) = Returns (node, pager1) ->
  get_page malloc_page pager1 (root_page_num table) = Returns (node, pager1).
Proof. intros Hwf H. apply (get_page_again malloc_page _ _ _ _ Hwf H). Qed.

(** X12. On a root leaf with no cell [execute_select] prints nothing and
    returns [EXECUTE_SUCCESS], with any fuel. *)
Theorem execute_select_empty_leaf
    (fuel : nat) (statement : Statement) (table : Table)
    (node : list Z) (pager1 : Pager) :
  get_page malloc_page (pager table) (root_page_num table) = Returns (node, pager1) ->
  load_int node leaf_node_num_cells = Returns 0 ->
  execute_select malloc_page fuel statement table
  = Returns (EXECUTE_SUCCESS, [], set_pager table pager1).
Proof.
  intros Hget Hcells. unfold execute_select, table_start.
  rewrite Hget, bind_Returns. cbn beta iota.
  rewrite Hcells, !bind_Returns. cbn beta iota.
  destruct fuel; reflexivity.
Qed.

(** X13. On a root leaf of [PAGE_SIZE] bytes that holds at least one
    cell, [execute_select] never returns, whatever the fuel: the cursor
    stays on cell 0. *)
Theorem execute_select_never_returns
    (statement : Statement) (table : Table)
    (node : list Z) (pager1 : Pager) (n : Z) :
  length (pages (pager table)) = Z.to_nat TABLE_MAX_PAGES ->
  get_page malloc_page (pager table) (root_page_num table) = Returns (node, pager1) ->
  length node = Z.to_nat PAGE_SIZE ->
  load_int node leaf_node_num_cells = Returns n ->
  n <> 0 ->
  forall fuel, execute_select malloc_page fuel statement table = OutOfFuel.
Proof.
  intros Hwf Hget Hlen Hcells Hn fuel.
  pose proof (root_fetched _ _ _ Hwf Hget) as Hagain.
  unfold execute_select, table_start.
  rewrite Hget, bind_Returns. cbn beta iota.
  rewrite Hcells, !bind_Returns. cbn beta iota.
  rewrite (bool_decide_eq_false_2 (n = 0)) by exact Hn.
  assert (Hrow : exists row, deserialize_row node (leaf_node_value 0) = Returns row).
  { unfold deserialize_row.
    rewrite !load_bytes_Returns by (rewrite ?Hlen; vm_compute; discriminate).
    rewrite !bind_Returns. eauto. }
  destruct Hrow as [row Hrow].
  rewrite (execute_select_loop_never_returns malloc_page _ (set_pager table pager1)
             node (leaf_node_value 0) row); [reflexivity | reflexivity | | exact Hrow].
  unfold cursor_value. cbn [pager set_pager page_num cell_num].
  rewrite Hagain, bind_Returns. reflexivity.
Qed.


(** X15. On a full root leaf [execute_insert] returns
    [EXECUTE_TABLE_FULL], whatever the key and the node type, without
    searching. *)
Theorem execute_insert_table_full
    (fuel : nat) (statement : Statement) (table : Table)
    (node : list Z) (pager1 : Pager) (n : Z) :
  get_page malloc_page (pager table) (root_page_num table) = Returns (node, pager1) ->
  load_int node leaf_node_num_cells = Returns n ->
  n >= LEAF_NODE_MAX_CELLS ->
  execute_insert malloc_page fuel statement table
  = Returns (EXECUTE_TABLE_FULL, set_pager table pager1).
Proof.
  intros Hget Hcells Hn. unfold execute_insert.
  rewrite Hget, bind_Returns. cbn beta iota. rewrite Hcells, bind_Returns.
  rewrite (bool_decide_eq_true_2 (n >= LEAF_NODE_MAX_CELLS)) by exact Hn.
  reflexivity.
Qed.

(** X16. When the root is a leaf that is not full, with strictly
    ascending keys none of which is the key of the row, [execute_insert]
    returns [EXECUTE_SUCCESS]. *)
Theorem execute_insert_absent_key
    (fuel : nat) (statement : Statement) (table : Table)
    (node : list Z) (pager1 : Pager) (n : Z) :
  length (pages (pager table)) = Z.to_nat TABLE_MAX_PAGES ->
  get_page malloc_page (pager table) (root_page_num table) = Returns (node, pager1) ->
  length node = Z.to_nat PAGE_SIZE ->
  get_node_type node = Returns (NodeType_value NODE_LEAF) ->
  load_int node leaf_node_num_cells = Returns n ->
  0 <= n < LEAF_NODE_MAX_CELLS ->
  leaf_keys_sorted node n ->
  (forall i, 0 <= i < n ->
     load_int node (leaf_node_key i)
     <> Returns (to_signed 32 (id (row_to_insert statement)))) ->
  (Z.to_nat n <= fuel)%nat ->
  execute_insert malloc_page fuel statement table
  = Returns (EXECUTE_SUCCESS, set_pager table pager1).
Proof.
  intros Hwf Hget Hlen Htype Hcells Hn Hsorted Habsent Hfuel.
  pose proof (root_fetched _ _ _ Hwf Hget) as Hagain.
  set (key := to_signed 32 (id (row_to_insert statement))) in *.
  destruct (leaf_node_find_spec malloc_page fuel
              (set_pager (set_pager table pager1) pager1)
              (root_page_num table) key node pager1 n)
    as (c & Hfind & Hc & _ & _); try assumption; [lia|].
  unfold execute_insert. rewrite Hget, bind_Returns. cbn beta iota.
  rewrite Hcells, bind_Returns.
  rewrite (bool_decide_eq_false_2 (n >= LEAF_NODE_MAX_CELLS)) by lia.
  unfold table_find. cbn [pager set_pager root_page_num].
  rewrite Hagain, bind_Returns. cbn beta iota.
  rewrite Htype, bind_Returns.
  rewrite (bool_decide_eq_true_2 (_ = _)) by reflexivity.
  cbn [root_page_num set_pager] in Hfind. fold key. rewrite Hfind, bind_Returns.
  cbn beta iota. cbn [cell_num].
  case_bool_decide as Hcn; [|reflexivity].
  destruct (leaf_node_key_readable node c Hlen ltac:(lia)) as [k Hk].
  rewrite Hk, bind_Returns.
  rewrite bool_decide_eq_false_2; [reflexivity|].
  intros ->. apply (Habsent c); [lia | exact Hk].
Qed.

(** X17. [execute_insert] modifies no page and not the file: whatever it
    returns, every page that was resident is resident with the same
    contents, and the file is as it was. *)
Theorem execute_insert_changes_no_page
    (fuel : nat) (statement : Statement) (table : Table)
    (res : ExecuteResult) (table' : Table) :
  length (pages (pager table)) = Z.to_nat TABLE_MAX_PAGES ->
  execute_insert malloc_page fuel statement table = Returns (res, table') ->
  file_descriptor (pager table') = file_descriptor (pager table)
  /\ root_page_num table' = root_page_num table
  /\ (forall (i : nat) (page : list Z),
        pages (pager table) !! i = Some (Some page) ->
        pages (pager table') !! i = Some (Some page)).
Proof.
  intros Hwf H.
  apply execute_insert_only_fetches in H as (node & pager1 & Hget & ->); [|exact Hwf].
  cbn [pager set_pager root_page_num].
  pose proof (get_page_inv malloc_page _ _ _ _ Hget) as [Hn Hcase].
  apply get_page_frame in Hget as (Hfd & _ & _ & Hother).
  split; [exact Hfd|]. split; [reflexivity|].
  intros i page Hi. destruct Hcase as [[_ ->] | [Hslot _]]; [exact Hi|].
  destruct (decide (i = Z.to_nat (root_page_num table))) as [-> | Hne].
  - rewrite Hi in Hslot. discriminate.
  - rewrite Hother by exact Hne. exact Hi.
Qed.

(** X18. When the root is not full and its node type is not
    [NODE_LEAF], [execute_insert] terminates the process. *)
Theorem execute_insert_internal_root_exits
    (fuel : nat) (statement : Statement) (table : Table)
    (node : list Z) (pager1 : Pager) (n t : Z) :
  length (pages (pager table)) = Z.to_nat TABLE_MAX_PAGES ->
  get_page malloc_page (pager table) (root_page_num table) = Returns (node, pager1) ->
  load_int node leaf_node_num_cells = Returns n ->
  n < LEAF_NODE_MAX_CELLS ->
  get_node_type node = Returns t ->
  t <> NodeType_value NODE_LEAF ->
  execute_insert malloc_page fuel statement table = Exits.
Proof.
  intros Hwf Hget Hcells Hn Htype Ht.
  pose proof (root_fetched _ _ _ Hwf Hget) as Hagain.
  unfold execute_insert. rewrite Hget, bind_Returns. cbn beta iota.
  rewrite Hcells, bind_Returns.
  rewrite (bool_decide_eq_false_2 (n >= LEAF_NODE_MAX_CELLS)) by lia.
  unfold table_find. cbn [pager set_pager root_page_num].
  rewrite Hagain, bind_Returns. cbn beta iota.
  rewrite Htype, bind_Returns.
  rewrite (bool_decide_eq_false_2 (t = _)) by exact Ht. reflexivity.
Qed.

(** Reading an [int] that lies outside the row [serialize_row] wrote. *)
Lemma load_int_serialize_other r mem dst mem' o :
  serialize_row r mem dst = Returns mem' ->
  o + SIZEOF_INT <= dst \/ dst + ROW_SIZE <= o ->
  load_int mem' o = load_int mem o.
Proof.
  intros H Ho.
  apply serialize_row_inv in H
    as (m1 & m2 & u & e & H1 & _ & Hlu & H2 & _ & Hle & H3).
  assert (HR : ROW_SIZE = 297) by reflexivity.
  rewrite (load_int_store_other _ _ _ _ o H3) by (rewrite Hle; lia).
  rewrite (load_int_store_other _ _ _ _ o H2) by (rewrite Hlu; lia).
  rewrite (load_int_store_other _ _ _ _ o H1) by (rewrite length_encode_le; lia).
  reflexivity.
Qed.

(** The row read back after [serialize_row], field by field. *)
Lemma serialize_row_read_back r mem dst :
  - 2 ^ 63 <= id r < 2 ^ 63 ->
  length (username r) = Z.to_nat USERNAME_SIZE ->
  length (email r) = Z.to_nat EMAIL_SIZE ->
  Z.of_nat (length (c_str (username r))) <= COLUMN_USERNAME_SIZE ->
  Z.of_nat (length (c_str (email r))) <= COLUMN_EMAIL_SIZE ->
  0 <= dst -> dst + ROW_SIZE <= Z.of_nat (length mem) ->
  exists mem',
    serialize_row r mem dst = Returns mem'
    /\ deserialize_row mem' dst
       = Returns {| id := id r;
                    username := null_padded USERNAME_SIZE (c_str (username r));
                    email := null_padded EMAIL_SIZE (c_str (email r)) |}.
Proof.
  intros Hid Hu He Hsu Hse Hd Hm.
  destruct (serialize_row_Returns r mem dst Hu He Hd Hm) as [mem' Hser].
  exists mem'. split; [exact Hser|].
  apply serialize_row_inv in Hser
    as (m1 & m2 & u & e & H1 & Hcu & Hlu & H2 & Hce & Hle & H3).
  assert (Hi : load_bytes mem' dst 8 = Returns (encode_le 8 (id r))).
  { rewrite (load_store_other _ _ _ _ dst 8 H3) by lia.
    rewrite (load_store_other _ _ _ _ dst 8 H2) by lia.
    apply load_store_same in H1. rewrite length_encode_le in H1. exact H1. }
  assert (Hlu' : load_bytes mem' (dst + 8) 33 = Returns u).
  { rewrite (load_store_other _ _ _ _ (dst + 8) 33 H3) by lia.
    apply load_store_same in H2. rewrite Hlu in H2. exact H2. }
  assert (Hle' : load_bytes mem' (dst + 41) 256 = Returns e).
  { apply load_store_same in H3. rewrite Hle in H3. exact H3. }
  apply strncpy_bytes_c_str in Hcu;
    [|change COLUMN_USERNAME_SIZE with 32 in Hsu; lia].
  apply strncpy_bytes_c_str in Hce;
    [|change COLUMN_EMAIL_SIZE with 255 in Hse; lia].
  unfold deserialize_row.
  replace (dst + ID_OFFSET) with dst by (unfold ID_OFFSET; lia).
  change ID_SIZE with 8. rewrite Hi, bind_Returns.
  change (dst + USERNAME_OFFSET) with (dst + 8).
  change USERNAME_SIZE with 33. rewrite Hlu', bind_Returns.
  change (dst + EMAIL_OFFSET) with (dst + 41).
  change EMAIL_SIZE with 256. rewrite Hle', bind_Returns.
  unfold mret, outcome_ret. f_equal. f_equal.
  - rewrite decode_encode_le. change (256 ^ Z.of_nat 8) with (2 ^ 64).
    rewrite to_signed_mod. apply to_signed_small; [lia|].
    change (2 ^ (64 - 1)) with (2 ^ 63). lia.
  - exact Hcu.
  - exact Hce.
Qed.

(** X19. What [deserialize_row] reads after [serialize_row], for every
    identifier of the [ssize_t] range, negative ones included: the
    identifier, and in each array the string followed by NULs up to the
    width of the field; what the source arrays held after the terminator
    is not stored. *)
Theorem deserialize_serialize_row_padded (r : Row) (mem : list Z) (dst : Z) :
  - 2 ^ 63 <= id r < 2 ^ 63 ->
  length (username r) = Z.to_nat USERNAME_SIZE ->
  length (email r) = Z.to_nat EMAIL_SIZE ->
  Z.of_nat (length (c_str (username r))) <= COLUMN_USERNAME_SIZE ->
  Z.of_nat (length (c_str (email r))) <= COLUMN_EMAIL_SIZE ->
  0 <= dst -> dst + ROW_SIZE <= Z.of_nat (length mem) ->
  exists mem',
    serialize_row r mem dst = Returns mem'
    /\ deserialize_row mem' dst
       = Returns {| id := id r;
                    username := null_padded USERNAME_SIZE (c_str (username r));
                    email := null_padded EMAIL_SIZE (c_str (email r)) |}.
Proof. apply serialize_row_read_back. Qed.

(** X20. [leaf_node_insert] with the cursor on the slot after the last
    cell of a leaf that is not full: the cell count becomes one more, the
    key of the new slot reads the key, the value of the new slot
    deserializes to the row, and outside the cell count and the bytes of
    the new cell the node is unchanged. *)
Theorem leaf_node_insert_at_end
    (cursor : Cursor) (table : Table) (key : Z) (value : Row)
    (node : list Z) (pager1 : Pager) (n : Z) :
  length (pages (pager table)) = Z.to_nat TABLE_MAX_PAGES ->
  get_page malloc_page (pager table) (page_num cursor) = Returns (node, pager1) ->
  length node = Z.to_nat PAGE_SIZE ->
  load_int node leaf_node_num_cells = Returns n ->
  0 <= n < LEAF_NODE_MAX_CELLS ->
  cell_num cursor = n ->
  - 2 ^ 31 <= key < 2 ^ 31 ->
  - 2 ^ 63 <= id value < 2 ^ 63 ->
  length (username value) = Z.to_nat USERNAME_SIZE ->
  length (email value) = Z.to_nat EMAIL_SIZE ->
  Z.of_nat (length (c_str (username value))) <= COLUMN_USERNAME_SIZE ->
  Z.of_nat (length (c_str (email value))) <= COLUMN_EMAIL_SIZE ->
  exists table' node',
    leaf_node_insert malloc_page cursor table key value = Returns table'
    /\ pages (pager table') !! Z.to_nat (page_num cursor) = Some (Some node')
    /\ load_int node' leaf_node_num_cells = Returns (n + 1)
    /\ load_int node' (leaf_node_key n) = Returns key
    /\ deserialize_row node' (leaf_node_value n)
       = Returns {| id := id value;
                    username := null_padded USERNAME_SIZE (c_str (username value));
                    email := null_padded EMAIL_SIZE (c_str (email value)) |}
    /\ (forall i : nat,
          (Z.of_nat i < LEAF_NODE_NUM_CELLS_OFFSET
           \/ LEAF_NODE_HEADER_SIZE <= Z.of_nat i < leaf_node_cell n
           \/ leaf_node_cell n + LEAF_NODE_CELL_SIZE <= Z.of_nat i) ->
          node' !! i = node !! i).
Proof.
  intros Hwf Hget Hlen Hcells Hn Hcur Hkey Hid Hu He Hsu Hse.
  pose proof (get_page_inv malloc_page _ _ _ _ Hget) as [Hpn _].
  destruct (get_page_again malloc_page _ _ _ _ Hwf Hget) as [_ Hwf1].
  assert (HM : LEAF_NODE_MAX_CELLS = 13) by reflexivity.
  assert (HP : Z.of_nat (length node) = 4096) by (rewrite Hlen; reflexivity).
  assert (Hnc : leaf_node_num_cells = 12) by reflexivity.
  assert (Hno : LEAF_NODE_NUM_CELLS_OFFSET = 12) by reflexivity.
  assert (Hhs : LEAF_NODE_HEADER_SIZE = 16) by reflexivity.
  assert (Hsi : SIZEOF_INT = 4) by reflexivity.
  assert (Hrs : ROW_SIZE = 297) by reflexivity.
  assert (Hcs : LEAF_NODE_CELL_SIZE = 301) by reflexivity.
  assert (Hcell : leaf_node_cell n = 317 + n).
  { unfold leaf_node_cell. lia. }
  assert (Hko : leaf_node_key n = 317 + n) by exact Hcell.
  assert (Hvo : leaf_node_value n = 321 + n).
  { unfold leaf_node_value. change LEAF_NODE_KEY_SIZE with 4. lia. }
  assert (Hl4 : length (encode_le (Z.to_nat SIZEOF_INT) (n + 1)) = 4%nat)
    by apply length_encode_le.
  assert (Hl4' : length (encode_le (Z.to_nat SIZEOF_INT) key) = 4%nat)
    by apply length_encode_le.
  destruct (store_int_Returns node leaf_node_num_cells (n + 1)) as [node2 H2];
    [lia | lia |].
  pose proof H2 as Hl2. apply store_bytes_length in Hl2.
  destruct (store_int_Returns node2 (leaf_node_key n) key) as [node3 H3];
    [lia | rewrite Hl2; lia |].
  pose proof H3 as Hl3. apply store_bytes_length in Hl3.
  destruct (serialize_row_read_back value node3 (leaf_node_value n))
    as (node4 & H4 & Hrow); try assumption; [lia | rewrite Hl3, Hl2; lia |].
  exists (set_pager table (set_page pager1 (page_num cursor) node4)), node4.
  split.
  { unfold leaf_node_insert. rewrite Hget, bind_Returns. cbn beta iota.
    rewrite Hcells, bind_Returns.
    rewrite (bool_decide_eq_false_2 (n >= LEAF_NODE_MAX_CELLS)) by lia.
    rewrite Hcur.
    rewrite (bool_decide_eq_false_2 (n < n)) by lia.
    rewrite bind_Returns, Hcells, bind_Returns, H2, bind_Returns, H3, bind_Returns.
    rewrite H4, bind_Returns. reflexivity. }
  split.
  { cbn [pager set_pager pages set_page]. apply list_lookup_insert_eq.
    rewrite Hwf1. unfold TABLE_MAX_PAGES in *. lia. }
  split; [|split; [|split]].
  - rewrite (load_int_serialize_other _ _ _ _ leaf_node_num_cells H4) by lia.
    unfold store_int in H3.
    rewrite (load_int_store_other _ _ _ _ leaf_node_num_cells H3) by lia.
    apply load_store_int in H2. rewrite H2. f_equal.
    apply to_signed_small; [lia|]. change (2 ^ (32 - 1)) with (2 ^ 31). lia.
  - rewrite (load_int_serialize_other _ _ _ _ (leaf_node_key n) H4) by lia.
    apply load_store_int in H3. rewrite H3. f_equal.
    apply to_signed_small; [lia|]. change (2 ^ (32 - 1)) with (2 ^ 31). lia.
  - exact Hrow.
  - intros i Hi. unfold store_int in H2, H3.
    rewrite (serialize_row_frame _ _ _ _ i H4) by lia.
    rewrite (store_bytes_frame _ _ _ _ i H3) by lia.
    rewrite (store_bytes_frame _ _ _ _ i H2) by lia.
    reflexivity.
Qed.

(** X21. [leaf_node_insert] does not return in two cases: on a full leaf
    the process exits; and when the cursor is on an existing cell of a
    leaf that is not full, the first [memcpy] that is to make room copies
    between two cells one byte apart, which overlap: undefined
    behaviour. *)
Theorem leaf_node_insert_failures
    (cursor : Cursor) (table : Table) (key : Z) (value : Row)
    (node : list Z) (pager1 : Pager) (n : Z) :
  get_page malloc_page (pager table) (page_num cursor) = Returns (node, pager1) ->
  load_int node leaf_node_num_cells = Returns n ->
  (n >= LEAF_NODE_MAX_CELLS ->
   leaf_node_insert malloc_page cursor table key value = Exits)
  /\ (n < LEAF_NODE_MAX_CELLS -> cell_num cursor < n ->
      leaf_node_insert malloc_page cursor table key value = Undefined).
Proof.
  intros Hget Hcells. split.
  - intros Hn. unfold leaf_node_insert. rewrite Hget, bind_Returns. cbn beta iota.
    rewrite Hcells, bind_Returns.
    rewrite (bool_decide_eq_true_2 (n >= LEAF_NODE_MAX_CELLS)) by exact Hn.
    reflexivity.
  - intros Hn Hc. unfold leaf_node_insert. rewrite Hget, bind_Returns. cbn beta iota.
    rewrite Hcells, bind_Returns.
    rewrite (bool_decide_eq_false_2 (n >= LEAF_NODE_MAX_CELLS)) by lia.
    rewrite (bool_decide_eq_true_2 (cell_num cursor < n)) by exact Hc.
    destruct (Z.to_nat (n - cell_num cursor)) as [|count] eqn:Hcount; [lia|].
    cbn [leaf_node_insert_shift]. unfold memcpy.
    rewrite (bool_decide_eq_true_2 (0 < LEAF_NODE_CELL_SIZE)) by reflexivity.
    rewrite bool_decide_eq_true_2; [reflexivity|].
    unfold leaf_node_cell. change LEAF_NODE_CELL_SIZE with 301. lia.
Qed.

End StatementsFurther.

(** * Closing the database *)

Lemma pager_flush_inv p i p' :
  pager_flush p i = Returns p' ->
  exists page f',
    0 <= i < TABLE_MAX_PAGES
    /\ pages p !! Z.to_nat i = Some (Some page)
    /\ file_write (file_descriptor p) (i * PAGE_SIZE) page = Some f'
    /\ p' = set_file p f'.
Proof.
  unfold pager_flush. intros H. bind_inv H.
  apply pages_at_inv in Hstep as [Hn Hslot].
  destruct r as [page|]; [|discriminate].
  destruct (file_write _ _ _) as [f'|] eqn:Hw; [|discriminate].
  injection H as <-. exists page, f'. repeat split; try assumption; try lia.
  destruct (pages p !! Z.to_nat i) as [[?|]|]; cbn in Hslot; congruence.
Qed.

(** A write at or after the end of a page leaves the page in the file. *)
Lemma file_write_keeps_page f off bs f' j pg :
  file_write f off bs = Some f' ->
  0 <= j -> (j + 1) * PAGE_SIZE <= off ->
  length pg = Z.to_nat PAGE_SIZE ->
  file_holds_page f j pg -> file_holds_page f' j pg.
Proof.
  intros Hw Hj Hoff Hlen Hold.
  apply file_write_spec in Hw as (Hio & Hio' & _ & _ & Hframe);
    [|unfold PAGE_SIZE in *; lia].
  unfold file_holds_page, file_read in *. rewrite Hio in Hold. rewrite Hio'.
  injection Hold as Hold. f_equal. rewrite <- Hold. apply list_eq. intros k.
  assert (Hl : (Z.to_nat PAGE_SIZE <= length (drop (Z.to_nat (j * PAGE_SIZE)) (contents f)))%nat).
  { pose proof (f_equal length Hold) as HH. rewrite length_take, Hlen in HH. lia. }
  rewrite length_drop in Hl.
  destruct (decide (k < Z.to_nat PAGE_SIZE)%nat) as [Hk | Hk].
  - rewrite !lookup_take_lt, !lookup_drop by exact Hk.
    apply Hframe; unfold PAGE_SIZE in *; lia.
  - rewrite !lookup_take_ge by lia. reflexivity.
Qed.

Lemma file_write_holds_page f i pg f' :
  file_write f (i * PAGE_SIZE) pg = Some f' ->
  0 <= i -> length pg = Z.to_nat PAGE_SIZE ->
  file_holds_page f' i pg.
Proof.
  intros Hw Hi Hlen.
  apply file_write_spec in Hw as (_ & Hio' & _ & Hread & _);
    [|unfold PAGE_SIZE; lia].
  unfold file_holds_page, file_read. rewrite Hio', <- Hlen, Hread. reflexivity.
Qed.

(** The first loop of [db_close], from page [i] on. *)
Lemma db_close_flush_loop_spec count :
  forall i p freed,
    io_error (file_descriptor p) = false ->
    0 <= i -> i + Z.of_nat count <= TABLE_MAX_PAGES ->
    (forall (j : nat) page,
       pages p !! j = Some (Some page) -> length page = Z.to_nat PAGE_SIZE) ->
    exists p' freed',
      db_close_flush_loop count i p freed = Returns (p', freed')
      /\ pages p' = pages p
      /\ num_pages p' = num_pages p
      /\ io_error (file_descriptor p') = false
      /\ (forall (j : nat) page,
            Z.of_nat j < i + Z.of_nat count ->
            pages p !! j = Some (Some page) ->
            Z.of_nat j < i -> file_holds_page (file_descriptor p) (Z.of_nat j) page ->
            file_holds_page (file_descriptor p') (Z.of_nat j) page)
      /\ (forall (j : nat) page,
            i <= Z.of_nat j < i + Z.of_nat count ->
            pages p !! j = Some (Some page) ->
            file_holds_page (file_descriptor p') (Z.of_nat j) page
            /\ Z.of_nat j ∈ freed')
      /\ (forall j, j ∈ freed -> j ∈ freed').
Proof.
  induction count as [|count IH]; intros i p freed Hio Hi Hbound Hsize.
  - exists p, freed. cbn [db_close_flush_loop].
    split; [reflexivity|]. repeat split; auto; lia.
  - cbn [db_close_flush_loop].
    rewrite pages_at_Returns by lia. rewrite bind_Returns.
    destruct (pages p !! Z.to_nat i) as [[pg|]|] eqn:Hp; cbn [default from_option].
    2,3: destruct (IH (i + 1) p freed Hio ltac:(lia) ltac:(lia) Hsize)
             as (p' & freed' & Hrun & Hpages & Hnum & Hio' & Hkeep & Hnew & Hfreed);
           exists p', freed'; split; [exact Hrun|];
           split; [exact Hpages|]; split; [exact Hnum|]; split; [exact Hio'|];
           split; [intros j page Hj Hres Hlt Hold; apply (Hkeep j page); auto; lia|];
           split; [|exact Hfreed];
           intros j page Hj Hres;
           destruct (decide (Z.of_nat j = i)) as [Heq | Hne];
           [rewrite <- Heq, Nat2Z.id in Hp; rewrite Hp in Hres; discriminate
           | apply (Hnew j page); [lia | exact Hres]].
    cbv [Datatypes.id].
    assert (Hlen : length pg = Z.to_nat PAGE_SIZE) by (apply (Hsize _ _ Hp)).
    unfold pager_flush. rewrite pages_at_Returns by lia.
    rewrite bind_Returns, Hp. cbv [from_option Datatypes.id].
    destruct (file_write (file_descriptor p) (i * PAGE_SIZE) pg) as [f'|] eqn:Hw.
    2:{ unfold file_write in Hw. rewrite Hio in Hw. discriminate. }
    rewrite bind_Returns.
    pose proof (file_write_spec _ _ _ _ Hw ltac:(unfold PAGE_SIZE; lia))
      as (_ & Hio1 & _).
    destruct (IH (i + 1) (set_file p f') (i :: freed) Hio1 ltac:(lia) ltac:(lia) Hsize)
      as (p' & freed' & Hrun & Hpages & Hnum & Hio' & Hkeep & Hnew & Hfreed).
    exists p', freed'. split; [exact Hrun|].
    split; [exact Hpages|]. split; [exact Hnum|]. split; [exact Hio'|].
    cbn [pages set_file file_descriptor] in *.
    split; [|split].
    + intros j page Hj Hres Hlt Hold. apply (Hkeep j page); [lia | exact Hres | lia |].
      apply (file_write_keeps_page _ _ _ _ _ _ Hw);
        [lia | unfold PAGE_SIZE; lia | eauto | exact Hold].
    + intros j page Hj Hres.
      destruct (decide (Z.of_nat j = i)) as [Heq | Hne].
      * assert (page = pg) as ->.
        { rewrite <- Heq, Nat2Z.id in Hp. congruence. }
        split.
        -- apply (Hkeep j pg); [lia | exact Hres | lia |]. rewrite Heq.
           apply (file_write_holds_page _ _ _ _ Hw); [lia | exact Hlen].
        -- apply Hfreed. rewrite Heq. apply elem_of_cons. left. reflexivity.
      * apply (Hnew j page); [lia | exact Hres].
    + intros j Hj. apply Hfreed. apply elem_of_cons. right. exact Hj.
Qed.

(** X22. The first loop of [db_close] writes every resident page to the
    file: with a working device, at most [TABLE_MAX_PAGES] known pages and
    resident pages of [PAGE_SIZE] bytes, it returns, the page array is as
    before, and the file then holds each resident page below [num_pages]
    at its page number. *)
Theorem db_close_flush_loop_writes_pages (p : Pager) :
  io_error (file_descriptor p) = false ->
  0 <= num_pages p <= TABLE_MAX_PAGES ->
  (forall (j : nat) page,
     pages p !! j = Some (Some page) -> length page = Z.to_nat PAGE_SIZE) ->
  exists p' freed,
    db_close_flush_loop (Z.to_nat (num_pages p)) 0 p [] = Returns (p', freed)
    /\ pages p' = pages p
    /\ (forall (j : nat) page,
          Z.of_nat j < num_pages p ->
          pages p !! j = Some (Some page) ->
          file_holds_page (file_descriptor p') (Z.of_nat j) page).
Proof.
  intros Hio Hnum Hsize.
  destruct (db_close_flush_loop_spec (Z.to_nat (num_pages p)) 0 p [] Hio)
    as (p' & freed' & Hrun & Hpages & _ & _ & _ & Hnew & _);
    [lia | lia | exact Hsize |].
  exists p', freed'. split; [exact Hrun|]. split; [exact Hpages|].
  intros j page Hj Hres. apply (Hnew j page); [lia | exact Hres].
Qed.

(** The second loop of [db_close] reaches a block that the first loop
    freed. *)
Lemma db_close_free_loop_double_free freed (j : nat) page count :
  Z.of_nat j ∈ freed ->
  forall i p,
    0 <= i -> i <= Z.of_nat j < i + Z.of_nat count ->
    pages p !! j = Some (Some page) ->
    db_close_free_loop count i p freed = Undefined.
Proof.
  intros Hfreed. induction count as [|count IH]; intros i p Hi Hj Hres; [lia|].
  cbn [db_close_free_loop].
  destruct (decide (0 <= i < TABLE_MAX_PAGES)) as [Hin | Hout].
  2:{ unfold pages_at.
      rewrite (bool_decide_eq_false_2 (0 <= i < TABLE_MAX_PAGES)) by exact Hout.
      reflexivity. }
  rewrite (pages_at_Returns _ _ Hin), bind_Returns.
  destruct (decide (Z.of_nat j = i)) as [Heq | Hne].
  - rewrite <- Heq, Nat2Z.id, Hres. cbv [from_option Datatypes.id].
    rewrite bool_decide_eq_true_2 by exact Hfreed. reflexivity.
  - destruct (pages p !! Z.to_nat i) as [[pg|]|] eqn:Hp; cbv [from_option Datatypes.id].
    + destruct (bool_decide (i ∈ freed)); [reflexivity|].
      apply IH; [lia | lia |]. cbn [pages clear_page].
      rewrite list_lookup_insert_ne by lia. exact Hres.
    + apply IH; [lia | lia | exact Hres].
    + apply IH; [lia | lia | exact Hres].
Qed.

(** X23. [db_close] frees twice the block of every page it flushed: with
    a working device, when some page below [num_pages] is resident,
    [db_close] flushes it, frees it, leaves the pointer in the page array
    and frees it again in its second loop, which is undefined
    behaviour. *)
Theorem db_close_double_free (table : Table) (j : nat) (page : list Z) :
  io_error (file_descriptor (pager table)) = false ->
  0 <= num_pages (pager table) <= TABLE_MAX_PAGES ->
  (forall (k : nat) pg,
     pages (pager table) !! k = Some (Some pg) -> length pg = Z.to_nat PAGE_SIZE) ->
  Z.of_nat j < num_pages (pager table) ->
  pages (pager table) !! j = Some (Some page) ->
  db_close table = Undefined.
Proof.
  intros Hio Hnum Hsize Hj Hres. unfold db_close.
  destruct (db_close_flush_loop_spec (Z.to_nat (num_pages (pager table))) 0
              (pager table) [] Hio)
    as (p' & freed' & Hrun & Hpages & _ & Hio' & _ & Hnew & _);
    [lia | lia | exact Hsize |].
  rewrite Hrun, bind_Returns. cbn beta iota. rewrite Hio'.
  destruct (Hnew j page ltac:(lia) Hres) as [_ Hfreed].
  rewrite (db_close_free_loop_double_free freed' j page _ Hfreed 0 p');
    [reflexivity | lia | unfold TABLE_MAX_PAGES in *; lia |].
  rewrite Hpages. exact Hres.
Qed.




(** * Printing a leaf *)

Lemma print_leaf_node_loop_spec node :
  length node = Z.to_nat PAGE_SIZE ->
  forall count i,
    0 <= i -> i + Z.of_nat count <= LEAF_NODE_MAX_CELLS ->
    exists lines,
      print_leaf_node_loop count node i = Returns lines
      /\ length lines = count
      /\ (forall k : nat, (k < count)%nat ->
            exists key,
              lines !! k = Some (i + Z.of_nat k, key)
              /\ load_int node (leaf_node_key (i + Z.of_nat k)) = Returns key).
Proof.
  intros Hlen. induction count as [|count IH]; intros i Hi Hb.
  - exists []. split; [reflexivity|]. split; [reflexivity|]. intros k Hk. lia.
  - cbn [print_leaf_node_loop].
    destruct (leaf_node_key_readable node i Hlen ltac:(lia)) as [key Hkey].
    rewrite Hkey, bind_Returns.
    destruct (IH (i + 1) ltac:(lia) ltac:(lia)) as (rest & Hrest & Hl & Hlines).
    rewrite Hrest, bind_Returns. exists ((i, key) :: rest).
    split; [reflexivity|]. split; [cbn; lia|].
    intros [|k] Hk.
    + exists key. replace (i + Z.of_nat 0) with i by lia. split; [reflexivity | exact Hkey].
    + destruct (Hlines k ltac:(lia)) as (key' & Hk1 & Hk2).
      exists key'. replace (i + Z.of_nat (S k)) with (i + 1 + Z.of_nat k) by lia.
      split; [exact Hk1 | exact Hk2].
Qed.

(** X25. For a leaf of [PAGE_SIZE] bytes with [n] cells,
    [print_leaf_node] prints the size [n] and [n] lines; line [k] shows
    the slot [k] and the key that [leaf_node_key] reads there, and when
    the keys are strictly ascending the binary search of [leaf_node_find]
    for a printed key returns the slot printed with it. *)
Theorem print_leaf_node_lines (node : list Z) (n : Z) :
  length node = Z.to_nat PAGE_SIZE ->
  load_int node leaf_node_num_cells = Returns n ->
  0 <= n <= LEAF_NODE_MAX_CELLS ->
  exists lines,
    print_leaf_node node = Returns (n, lines)
    /\ Z.of_nat (length lines) = n
    /\ (forall k : nat, Z.of_nat k < n ->
          exists key,
            lines !! k = Some (Z.of_nat k, key)
            /\ load_int node (leaf_node_key (Z.of_nat k)) = Returns key
            /\ (leaf_keys_sorted node n ->
                forall fuel, (Z.to_nat n <= fuel)%nat ->
                  leaf_node_find_loop fuel node key 0 n = Returns (Z.of_nat k))).
Proof.
  intros Hlen Hcells Hn.
  destruct (print_leaf_node_loop_spec node Hlen (Z.to_nat n) 0)
    as (lines & Hrun & Hl & Hlines); [lia | lia |].
  exists lines. unfold print_leaf_node.
  rewrite Hcells, bind_Returns, Hrun, bind_Returns.
  split; [reflexivity|]. split; [lia|].
  intros k Hk. destruct (Hlines k ltac:(lia)) as (key & Hline & Hkey).
  change (0 + Z.of_nat k) with (Z.of_nat k) in *.
  exists key. split; [exact Hline|]. split; [exact Hkey|].
  intros Hsorted fuel Hfuel.
  destruct (leaf_node_find_loop_spec (fun _ => []) node n key Hlen Hn Hsorted fuel 0 n)
    as (c & Hloop & Hc & Hres); [lia | lia | lia | intros; lia | intros; lia |].
  rewrite Hloop. f_equal.
  destruct Hres as [[Hcn Hck] | [Hl' Hr']].
  - destruct (Z.lt_trichotomy c (Z.of_nat k)) as [Hlt | [Heq | Hgt]]; [|exact Heq|].
    + pose proof (Hsorted c (Z.of_nat k) key key ltac:(lia) ltac:(lia) ltac:(lia) Hck Hkey). lia.
    + pose proof (Hsorted (Z.of_nat k) c key key ltac:(lia) ltac:(lia) ltac:(lia) Hkey Hck). lia.
  - destruct (decide (Z.of_nat k < c)) as [Hlt | Hge].
    + pose proof (Hl' (Z.of_nat k) key ltac:(lia) Hkey). lia.
    + pose proof (Hr' (Z.of_nat k) key ltac:(lia) Hkey). lia.
Qed.

(** X26. For every slot below [LEAF_NODE_MAX_CELLS] the cell that the
    accessors address lies after the node header and inside the page, the
    key is at the start of the cell, and the value follows the key and
    ends with the cell. *)
Theorem leaf_cell_within_page (i : Z) :
  0 <= i < LEAF_NODE_MAX_CELLS ->
  LEAF_NODE_HEADER_SIZE <= leaf_node_cell i
  /\ leaf_node_key i = leaf_node_cell i
  /\ leaf_node_value i = leaf_node_key i + LEAF_NODE_KEY_SIZE
  /\ leaf_node_value i + LEAF_NODE_VALUE_SIZE
     = leaf_node_cell i + LEAF_NODE_CELL_SIZE
  /\ leaf_node_cell i + LEAF_NODE_CELL_SIZE <= PAGE_SIZE.
Proof.
  intros Hi. change LEAF_NODE_MAX_CELLS with 13 in Hi.
  unfold leaf_node_value, leaf_node_key, leaf_node_cell.
  change LEAF_NODE_HEADER_SIZE with 16. change LEAF_NODE_CELL_SIZE with 301.
  change LEAF_NODE_KEY_SIZE with 4. change LEAF_NODE_VALUE_SIZE with 297.
  change PAGE_SIZE with 4096. lia.
Qed.

(** * Preparing an insert statement *)

Lemma c_str_no_nul a : 0 ∉ c_str a.
Proof.
  induction a as [|c a IH]; cbn [c_str].
  - apply not_elem_of_nil.
  - case_bool_decide as Hc; [apply not_elem_of_nil|].
    rewrite not_elem_of_cons. split; [congruence | exact IH].
Qed.

Lemma c_str_app_nul u rest : 0 ∉ u -> c_str (u ++ 0 :: rest) = u.
Proof.
  induction u as [|c u IH]; intros Hu.
  - reflexivity.
  - apply not_elem_of_cons in Hu as [Hc Hu]. cbn [app c_str].
    rewrite bool_decide_eq_false_2 by congruence. f_equal. apply IH, Hu.
Qed.

(** A token holds only bytes of the string. *)
Lemma strtok_tokens_bytes s :
  forall cur t c,
    t ∈ strtok_tokens s cur -> c ∈ t -> c ∈ cur \/ c ∈ s.
Proof.
  induction s as [|b s IH]; intros cur t c Ht Hc; cbn [strtok_tokens] in Ht.
  - destruct cur as [|x cur].
    + apply elem_of_nil in Ht. contradiction.
    + apply list_elem_of_singleton in Ht. subst t. left. exact Hc.
  - case_bool_decide as Hb.
    + destruct cur as [|x cur].
      * destruct (IH [] t c Ht Hc) as [H | H]; [left; exact H|].
        right. apply elem_of_cons. right. exact H.
      * apply elem_of_cons in Ht as [-> | Ht]; [left; exact Hc|].
        destruct (IH [] t c Ht Hc) as [H | H].
        -- apply elem_of_nil in H. contradiction.
        -- right. apply elem_of_cons. right. exact H.
    + destruct (IH (cur ++ [b]) t c Ht Hc) as [H | H].
      * apply elem_of_app in H as [H | H]; [left; exact H|].
        apply list_elem_of_singleton in H. subst c. right. apply elem_of_cons. left. reflexivity.
      * right. apply elem_of_cons. right. exact H.
Qed.

Lemma strtok_token_no_nul buffer (k : nat) t :
  strtok_tokens (c_str buffer) [] !! k = Some t -> 0 ∉ t.
Proof.
  intros Hk H0.
  destruct (strtok_tokens_bytes (c_str buffer) [] t 0) as [H | H].
  - apply list_elem_of_lookup. eauto.
  - exact H0.
  - apply elem_of_nil in H. exact H.
  - apply (c_str_no_nul buffer). exact H.
Qed.

Lemma atoi_range s v : atoi s = Returns v -> - 2 ^ 31 <= v < 2 ^ 31.
Proof.
  unfold atoi. cbv zeta. case_bool_decide as Hr; [|discriminate].
  intros [= <-]. exact Hr.
Qed.

(** Every way [prepare_insert] returns [PREPARE_SUCCESS]. *)
Lemma prepare_insert_success_inv buffer statement statement' :
  prepare_insert buffer statement = Returns (PREPARE_SUCCESS, statement') ->
  exists id_string u e v,
    strtok_tokens (c_str buffer) [] !! 1%nat = Some id_string
    /\ strtok_tokens (c_str buffer) [] !! 2%nat = Some u
    /\ strtok_tokens (c_str buffer) [] !! 3%nat = Some e
    /\ atoi id_string = Returns v /\ 0 <= v < 2 ^ 31
    /\ Z.of_nat (length u) <= COLUMN_USERNAME_SIZE
    /\ Z.of_nat (length e) <= COLUMN_EMAIL_SIZE
    /\ (length u + 1 <= length (username (row_to_insert statement)))%nat
    /\ (length e + 1 <= length (email (row_to_insert statement)))%nat
    /\ statement'
       = {| type := STATEMENT_INSERT;
            row_to_insert :=
              {| id := v;
                 username := u ++ [0] ++ drop (length u + 1)
                                              (username (row_to_insert statement));
                 email := e ++ [0] ++ drop (length e + 1)
                                           (email (row_to_insert statement)) |} |}.
Proof.
  unfold prepare_insert. cbv zeta. intros H.
  destruct (strtok_tokens (c_str buffer) [] !! 1%nat) as [ids|]; [|discriminate].
  destruct (strtok_tokens (c_str buffer) [] !! 2%nat) as [u|]; [|discriminate].
  destruct (strtok_tokens (c_str buffer) [] !! 3%nat) as [e|]; [|discriminate].
  apply bind_Returns_inv in H as (v & Hv & H).
  destruct (bool_decide (v < 0)) eqn:Hneg; [discriminate|].
  destruct (bool_decide (Z.of_nat (length u) > _)) eqn:Hlu; [discriminate|].
  destruct (bool_decide (Z.of_nat (length e) > _)) eqn:Hle; [discriminate|].
  apply bool_decide_eq_false in Hneg, Hlu, Hle.
  apply bind_Returns_inv in H as (ua & Hua & H).
  apply bind_Returns_inv in H as (ea & Hea & H).
  unfold strcpy in Hua, Hea.
  destruct (bool_decide (length u + 1 <= _)%nat) eqn:Hfu; [|discriminate].
  destruct (bool_decide (length e + 1 <= _)%nat) eqn:Hfe; [|discriminate].
  apply bool_decide_eq_true in Hfu, Hfe.
  apply Returns_inj in Hua, Hea. subst ua ea.
  apply Returns_inj in H. injection H as <-.
  pose proof (atoi_range _ _ Hv).
  exists ids, u, e, v. repeat split; auto; lia.
Qed.

(** X27. A statement that [prepare_insert] accepts is an insert whose row
    has a non-negative identifier that fits an [int], the value [atoi]
    gives for the second token, and whose username and email strings are
    the third and fourth tokens, of at most 32 and 255 bytes; the arrays
    keep their sizes. *)
Theorem prepare_insert_success_row
    (buffer : list Z) (statement statement' : Statement) :
  prepare_insert buffer statement = Returns (PREPARE_SUCCESS, statement') ->
  exists id_string u e,
    strtok_tokens (c_str buffer) [] !! 1%nat = Some id_string
    /\ strtok_tokens (c_str buffer) [] !! 2%nat = Some u
    /\ strtok_tokens (c_str buffer) [] !! 3%nat = Some e
    /\ type statement' = STATEMENT_INSERT
    /\ atoi id_string = Returns (id (row_to_insert statement'))
    /\ 0 <= id (row_to_insert statement') < 2 ^ 31
    /\ c_str (username (row_to_insert statement')) = u
    /\ c_str (email (row_to_insert statement')) = e
    /\ Z.of_nat (length u) <= COLUMN_USERNAME_SIZE
    /\ Z.of_nat (length e) <= COLUMN_EMAIL_SIZE
    /\ length (username (row_to_insert statement'))
       = length (username (row_to_insert statement))
    /\ length (email (row_to_insert statement'))
       = length (email (row_to_insert statement)).
Proof.
  intros H.
  apply prepare_insert_success_inv in H
    as (ids & u & e & v & H1 & H2 & H3 & Hv & Hr & Hlu & Hle & Hfu & Hfe & ->).
  exists ids, u, e. cbn [type row_to_insert id username email].
  repeat split; try assumption; try lia.
  - apply c_str_app_nul. apply (strtok_token_no_nul buffer 2 u H2).
  - apply c_str_app_nul. apply (strtok_token_no_nul buffer 3 e H3).
  - rewrite !length_app, length_drop. cbn [length]. lia.
  - rewrite !length_app, length_drop. cbn [length]. lia.
Qed.

(** X28. A row that [prepare_insert] accepts into a statement whose arrays
    have their declared sizes goes through [serialize_row] and
    [deserialize_row] unchanged: the identifier is the number parsed and
    the username and email read back are the tokens, NUL-padded. *)
Theorem prepare_insert_then_serialize
    (buffer : list Z) (statement statement' : Statement)
    (mem : list Z) (dst : Z) :
  prepare_insert buffer statement = Returns (PREPARE_SUCCESS, statement') ->
  length (username (row_to_insert statement)) = Z.to_nat USERNAME_SIZE ->
  length (email (row_to_insert statement)) = Z.to_nat EMAIL_SIZE ->
  0 <= dst -> dst + ROW_SIZE <= Z.of_nat (length mem) ->
  exists id_string u e v mem',
    strtok_tokens (c_str buffer) [] !! 1%nat = Some id_string
    /\ strtok_tokens (c_str buffer) [] !! 2%nat = Some u
    /\ strtok_tokens (c_str buffer) [] !! 3%nat = Some e
    /\ atoi id_string = Returns v
    /\ serialize_row (row_to_insert statement') mem dst = Returns mem'
    /\ deserialize_row mem' dst
       = Returns {| id := v;
                    username := null_padded USERNAME_SIZE u;
                    email := null_padded EMAIL_SIZE e |}.
Proof.
  intros H Hu He Hd Hm.
  apply prepare_insert_success_inv in H
    as (ids & u & e & v & H1 & H2 & H3 & Hv & Hr & Hlu & Hle & Hfu & Hfe & ->).
  cbn [row_to_insert].
  set (r := {| id := v; username := _; email := _ |}).
  assert (Hcu : c_str (username r) = u)
    by (apply c_str_app_nul, (strtok_token_no_nul buffer 2 u H2)).
  assert (Hce : c_str (email r) = e)
    by (apply c_str_app_nul, (strtok_token_no_nul buffer 3 e H3)).
  destruct (serialize_row_read_back r mem dst) as (mem' & Hser & Hde).
  - cbn [id r]. lia.
  - cbn [username r]. rewrite !length_app, length_drop. cbn [length]. lia.
  - cbn [email r]. rewrite !length_app, length_drop. cbn [length]. lia.
  - rewrite Hcu. exact Hlu.
  - rewrite Hce. exact Hle.
  - exact Hd.
  - exact Hm.
  - rewrite Hcu, Hce in Hde. exists ids, u, e, v, mem'. auto 10.
Qed.

(** X29. When [prepare_insert] returns anything but [PREPARE_SUCCESS],
    the statement has become an insert and its row is as it was; the
    function never returns [PREPARE_UNRECOGNIZED_STATEMENT]. *)
Theorem prepare_insert_rejection_keeps_row
    (buffer : list Z) (statement statement' : Statement) (res : PrepareResult) :
  prepare_insert buffer statement = Returns (res, statement') ->
  res <> PREPARE_SUCCESS ->
  res <> PREPARE_UNRECOGNIZED_STATEMENT
  /\ type statement' = STATEMENT_INSERT
  /\ row_to_insert statement' = row_to_insert statement.
Proof.
  unfold prepare_insert. cbv zeta. intros H Hres.
  assert (Hdone : forall r,
            Returns (r, set_type_insert statement) = Returns (res, statement') ->
            r <> PREPARE_UNRECOGNIZED_STATEMENT ->
            res <> PREPARE_UNRECOGNIZED_STATEMENT
            /\ type statement' = STATEMENT_INSERT
            /\ row_to_insert statement' = row_to_insert statement).
  { intros r Hr Hne. apply Returns_inj in Hr. injection Hr as <- <-. auto. }
  destruct (strtok_tokens (c_str buffer) [] !! 1%nat) as [ids|];
    [|apply (Hdone _ H); discriminate].
  destruct (strtok_tokens (c_str buffer) [] !! 2%nat) as [u|];
    [|apply (Hdone _ H); discriminate].
  destruct (strtok_tokens (c_str buffer) [] !! 3%nat) as [e|];
    [|apply (Hdone _ H); discriminate].
  apply bind_Returns_inv in H as (v & Hv & H).
  destruct (bool_decide (v < 0)); [apply (Hdone _ H); discriminate|].
  destruct (bool_decide (Z.of_nat (length u) > _)); [apply (Hdone _ H); discriminate|].
  destruct (bool_decide (Z.of_nat (length e) > _)); [apply (Hdone _ H); discriminate|].
  apply bind_Returns_inv in H as (ua & Hua & H).
  apply bind_Returns_inv in H as (ea & Hea & H).
  apply Returns_inj in H. injection H as <- _. contradiction.
Qed.

(** * The further properties on concrete inputs *)

Lemma new_table_pages_sized : pages_sized (pager new_table).
Proof.
  intros j page. change (pages (pager new_table))
    with (<[0%nat := Some new_root]> (replicate (Z.to_nat TABLE_MAX_PAGES) (@None (list Z)))).
  destruct (decide (j = 0%nat)) as [-> | Hne].
  - rewrite list_lookup_insert_eq by (rewrite length_replicate; vm_compute; lia).
    intros [= <-]. reflexivity.
  - rewrite list_lookup_insert_ne by congruence.
    intros H. apply lookup_replicate in H as [[=] _].
Qed.


Lemma sorted_leaf_lacks_5 (i : Z) :
  0 <= i < 3 -> load_int sorted_leaf (leaf_node_key i) <> Returns 5.
Proof.
  intros Hi. assert (Hc : i = 0 \/ i = 1 \/ i = 2) by lia.
  destruct Hc as [-> | [-> | ->]]; vm_compute; discriminate.
Qed.

Lemma get_page_twice_witness :
  get_page stale_block fetched_once_pager 0
  = Returns (stale_block 0, fetched_once_pager).
Proof.
  apply (get_page_twice stale_block new_pager 0 (stale_block 0) fetched_once_pager);
    reflexivity.
Defined.

Lemma get_page_frame_witness :
  file_descriptor fetched_once_pager = file_descriptor new_pager
  /\ file_length fetched_once_pager = file_length new_pager
  /\ length (pages fetched_once_pager) = length (pages new_pager)
  /\ (forall i : nat, i <> Z.to_nat 0 ->
        pages fetched_once_pager !! i = pages new_pager !! i).
Proof.
  apply (get_page_frame stale_block new_pager 0 (stale_block 0) fetched_once_pager).
  reflexivity.
Defined.

Lemma pager_flush_writes_page_witness :
  exists page,
    pages (pager (table_of_page_loaded sorted_leaf)) !! Z.to_nat 0 = Some (Some page)
    /\ file_read (file_descriptor flushed_pager) (0 * PAGE_SIZE)
         (Z.of_nat (length page)) = Some page
    /\ (forall i : nat,
          Z.of_nat i < 0 * PAGE_SIZE
          \/ 0 * PAGE_SIZE + Z.of_nat (length page) <= Z.of_nat i ->
          (i < length (contents (file_descriptor
                                   (pager (table_of_page_loaded sorted_leaf)))))%nat ->
          contents (file_descriptor flushed_pager) !! i
          = contents (file_descriptor (pager (table_of_page_loaded sorted_leaf))) !! i)
    /\ pages flushed_pager = pages (pager (table_of_page_loaded sorted_leaf))
    /\ num_pages flushed_pager = num_pages (pager (table_of_page_loaded sorted_leaf))
    /\ file_length flushed_pager
       = file_length (pager (table_of_page_loaded sorted_leaf)).
Proof.
  apply (pager_flush_writes_page (pager (table_of_page_loaded sorted_leaf)) 0
           flushed_pager).
  reflexivity.
Defined.



Lemma initialize_leaf_node_spec_witness :
  exists node',
    initialize_leaf_node zero_page = Returns node'
    /\ length node' = length zero_page
    /\ get_node_type node' = Returns (NodeType_value NODE_LEAF)
    /\ load_int node' leaf_node_num_cells = Returns 0
    /\ (forall i : nat,
          IS_ROOT_OFFSET <= Z.of_nat i < LEAF_NODE_NUM_CELLS_OFFSET
          \/ LEAF_NODE_HEADER_SIZE <= Z.of_nat i ->
          node' !! i = zero_page !! i).
Proof.
  apply (initialize_leaf_node_spec zero_page). vm_compute. discriminate.
Defined.

Lemma db_open_new_file_witness :
  exists table root,
    db_open stale_block (Some empty_file) = Returns table
    /\ root_page_num table = 0
    /\ num_pages (pager table) = 1
    /\ pages (pager table) !! 0%nat = Some (Some root)
    /\ length root = length (stale_block 0)
    /\ get_node_type root = Returns (NodeType_value NODE_LEAF)
    /\ load_int root leaf_node_num_cells = Returns 0
    /\ file_descriptor (pager table) = empty_file.
Proof.
  apply (db_open_new_file stale_block empty_file).
  - reflexivity.
  - reflexivity.
  - vm_compute. discriminate.
Defined.


Lemma execute_select_empty_leaf_witness :
  execute_select stale_block 0 select_statement new_table
  = Returns (EXECUTE_SUCCESS, [], set_pager new_table (pager new_table)).
Proof.
  apply (execute_select_empty_leaf stale_block 0 select_statement new_table
           new_root (pager new_table)); reflexivity.
Defined.

Lemma execute_select_never_returns_witness :
  execute_select stale_block 5 select_statement (table_of_page sorted_leaf)
  = OutOfFuel.
Proof.
  refine (execute_select_never_returns stale_block select_statement
            (table_of_page sorted_leaf) sorted_leaf
            (pager (table_of_page_loaded sorted_leaf)) 3 _ _ _ _ _ 5).
  - reflexivity.
  - reflexivity.
  - reflexivity.
  - reflexivity.
  - discriminate.
Defined.


Lemma execute_insert_table_full_witness :
  execute_insert stale_block 0 (insert_statement row_1) (table_of_page full_leaf)
  = Returns (EXECUTE_TABLE_FULL,
             set_pager (table_of_page full_leaf)
                       (pager (table_of_page_loaded full_leaf))).
Proof.
  apply (execute_insert_table_full stale_block 0 (insert_statement row_1)
           (table_of_page full_leaf) full_leaf
           (pager (table_of_page_loaded full_leaf)) 13).
  - reflexivity.
  - reflexivity.
  - vm_compute. discriminate.
Defined.

Lemma execute_insert_absent_key_witness :
  execute_insert stale_block 3 (insert_statement row_5) (table_of_page sorted_leaf)
  = Returns (EXECUTE_SUCCESS,
             set_pager (table_of_page sorted_leaf)
                       (pager (table_of_page_loaded sorted_leaf))).
Proof.
  apply (execute_insert_absent_key stale_block 3 (insert_statement row_5)
           (table_of_page sorted_leaf) sorted_leaf
           (pager (table_of_page_loaded sorted_leaf)) 3).
  - reflexivity.
  - reflexivity.
  - reflexivity.
  - reflexivity.
  - reflexivity.
  - vm_compute. split; [discriminate | reflexivity].
  - exact sorted_leaf_keys_sorted.
  - exact sorted_leaf_lacks_5.
  - vm_compute. lia.
Defined.

Lemma execute_insert_changes_no_page_witness :
  file_descriptor (pager new_table) = file_descriptor (pager new_table)
  /\ root_page_num new_table = root_page_num new_table
  /\ (forall (i : nat) (page : list Z),
        pages (pager new_table) !! i = Some (Some page) ->
        pages (pager new_table) !! i = Some (Some page)).
Proof.
  apply (execute_insert_changes_no_page stale_block 1 (insert_statement row_1)
           new_table EXECUTE_SUCCESS new_table); reflexivity.
Defined.

Lemma execute_insert_internal_root_exits_witness :
  execute_insert stale_block 1 (insert_statement row_1) (table_of_page zero_page)
  = Exits.
Proof.
  apply (execute_insert_internal_root_exits stale_block 1 (insert_statement row_1)
           (table_of_page zero_page) zero_page
           (pager (table_of_page_loaded zero_page)) 0 0).
  - reflexivity.
  - reflexivity.
  - reflexivity.
  - vm_compute. reflexivity.
  - reflexivity.
  - discriminate.
Defined.

Lemma deserialize_serialize_row_padded_witness :
  exists mem',
    serialize_row stale_row zero_page 321 = Returns mem'
    /\ deserialize_row mem' 321
       = Returns {| id := id stale_row;
                    username := null_padded USERNAME_SIZE (c_str (username stale_row));
                    email := null_padded EMAIL_SIZE (c_str (email stale_row)) |}.
Proof.
  apply (deserialize_serialize_row_padded stale_row zero_page 321).
  - vm_compute. split; [discriminate | reflexivity].
  - reflexivity.
  - reflexivity.
  - vm_compute. discriminate.
  - vm_compute. discriminate.
  - lia.
  - vm_compute. discriminate.
Defined.

Lemma leaf_node_insert_at_end_witness :
  exists table' node',
    leaf_node_insert stale_block
      {| page_num := 0; cell_num := 0; end_of_table := None |}
      new_table 1 row_1 = Returns table'
    /\ pages (pager table') !! Z.to_nat 0 = Some (Some node')
    /\ load_int node' leaf_node_num_cells = Returns (0 + 1)
    /\ load_int node' (leaf_node_key 0) = Returns 1
    /\ deserialize_row node' (leaf_node_value 0)
       = Returns {| id := id row_1;
                    username := null_padded USERNAME_SIZE (c_str (username row_1));
                    email := null_padded EMAIL_SIZE (c_str (email row_1)) |}
    /\ (forall i : nat,
          (Z.of_nat i < LEAF_NODE_NUM_CELLS_OFFSET
           \/ LEAF_NODE_HEADER_SIZE <= Z.of_nat i < leaf_node_cell 0
           \/ leaf_node_cell 0 + LEAF_NODE_CELL_SIZE <= Z.of_nat i) ->
          node' !! i = new_root !! i).
Proof.
  apply (leaf_node_insert_at_end stale_block
           {| page_num := 0; cell_num := 0; end_of_table := None |}
           new_table 1 row_1 new_root (pager new_table) 0).
  - reflexivity.
  - reflexivity.
  - reflexivity.
  - reflexivity.
  - vm_compute. split; [discriminate | reflexivity].
  - reflexivity.
  - vm_compute. split; [discriminate | reflexivity].
  - vm_compute. split; [discriminate | reflexivity].
  - reflexivity.
  - reflexivity.
  - vm_compute. discriminate.
  - vm_compute. discriminate.
Defined.

Lemma leaf_node_insert_failures_witness :
  (3 >= LEAF_NODE_MAX_CELLS ->
   leaf_node_insert stale_block first_cell_cursor (table_of_page sorted_leaf)
     5 row_5 = Exits)
  /\ (3 < LEAF_NODE_MAX_CELLS -> cell_num first_cell_cursor < 3 ->
      leaf_node_insert stale_block first_cell_cursor (table_of_page sorted_leaf)
        5 row_5 = Undefined).
Proof.
  apply (leaf_node_insert_failures stale_block first_cell_cursor
           (table_of_page sorted_leaf) 5 row_5 sorted_leaf
           (pager (table_of_page_loaded sorted_leaf)) 3); reflexivity.
Defined.

Lemma db_close_flush_loop_writes_pages_witness :
  exists p' freed,
    db_close_flush_loop (Z.to_nat (num_pages (pager new_table))) 0
      (pager new_table) [] = Returns (p', freed)
    /\ pages p' = pages (pager new_table)
    /\ (forall (j : nat) page,
          Z.of_nat j < num_pages (pager new_table) ->
          pages (pager new_table) !! j = Some (Some page) ->
          file_holds_page (file_descriptor p') (Z.of_nat j) page).
Proof.
  apply (db_close_flush_loop_writes_pages (pager new_table)).
  - reflexivity.
  - vm_compute. split; discriminate.
  - exact new_table_pages_sized.
Defined.

Lemma db_close_double_free_witness : db_close new_table = Undefined.
Proof.
  apply (db_close_double_free new_table 0 new_root).
  - reflexivity.
  - vm_compute. split; discriminate.
  - exact new_table_pages_sized.
  - reflexivity.
  - reflexivity.
Defined.


Lemma print_leaf_node_lines_witness :
  exists lines,
    print_leaf_node sorted_leaf = Returns (3, lines)
    /\ Z.of_nat (length lines) = 3
    /\ (forall k : nat, Z.of_nat k < 3 ->
          exists key,
            lines !! k = Some (Z.of_nat k, key)
            /\ load_int sorted_leaf (leaf_node_key (Z.of_nat k)) = Returns key
            /\ (leaf_keys_sorted sorted_leaf 3 ->
                forall fuel, (Z.to_nat 3 <= fuel)%nat ->
                  leaf_node_find_loop fuel sorted_leaf key 0 3
                  = Returns (Z.of_nat k))).
Proof.
  apply (print_leaf_node_lines sorted_leaf 3).
  - reflexivity.
  - reflexivity.
  - vm_compute. split; discriminate.
Defined.

Lemma leaf_cell_within_page_witness :
  LEAF_NODE_HEADER_SIZE <= leaf_node_cell 12
  /\ leaf_node_key 12 = leaf_node_cell 12
  /\ leaf_node_value 12 = leaf_node_key 12 + LEAF_NODE_KEY_SIZE
  /\ leaf_node_value 12 + LEAF_NODE_VALUE_SIZE
     = leaf_node_cell 12 + LEAF_NODE_CELL_SIZE
  /\ leaf_node_cell 12 + LEAF_NODE_CELL_SIZE <= PAGE_SIZE.
Proof.
  apply (leaf_cell_within_page 12). vm_compute. split; [discriminate | reflexivity].
Defined.

Lemma prepare_insert_success_row_witness :
  exists id_string u e,
    strtok_tokens (c_str insert_line) [] !! 1%nat = Some id_string
    /\ strtok_tokens (c_str insert_line) [] !! 2%nat = Some u
    /\ strtok_tokens (c_str insert_line) [] !! 3%nat = Some e
    /\ type prepared_statement = STATEMENT_INSERT
    /\ atoi id_string = Returns (id (row_to_insert prepared_statement))
    /\ 0 <= id (row_to_insert prepared_statement) < 2 ^ 31
    /\ c_str (username (row_to_insert prepared_statement)) = u
    /\ c_str (email (row_to_insert prepared_statement)) = e
    /\ Z.of_nat (length u) <= COLUMN_USERNAME_SIZE
    /\ Z.of_nat (length e) <= COLUMN_EMAIL_SIZE
    /\ length (username (row_to_insert prepared_statement))
       = length (username (row_to_insert stale_statement))
    /\ length (email (row_to_insert prepared_statement))
       = length (email (row_to_insert stale_statement)).
Proof.
  apply (prepare_insert_success_row insert_line stale_statement prepared_statement).
  reflexivity.
Defined.

Lemma prepare_insert_then_serialize_witness :
  exists id_string u e v mem',
    strtok_tokens (c_str insert_line) [] !! 1%nat = Some id_string
    /\ strtok_tokens (c_str insert_line) [] !! 2%nat = Some u
    /\ strtok_tokens (c_str insert_line) [] !! 3%nat = Some e
    /\ atoi id_string = Returns v
    /\ serialize_row (row_to_insert prepared_statement) zero_page 321 = Returns mem'
    /\ deserialize_row mem' 321
       = Returns {| id := v;
                    username := null_padded USERNAME_SIZE u;
                    email := null_padded EMAIL_SIZE e |}.
Proof.
  apply (prepare_insert_then_serialize insert_line stale_statement
           prepared_statement zero_page 321).
  - reflexivity.
  - reflexivity.
  - reflexivity.
  - lia.
  - vm_compute. discriminate.
Defined.

Lemma prepare_insert_rejection_keeps_row_witness :
  PREPARE_NEGATIVE_ID <> PREPARE_UNRECOGNIZED_STATEMENT
  /\ type (set_type_insert stale_statement) = STATEMENT_INSERT
  /\ row_to_insert (set_type_insert stale_statement)
     = row_to_insert stale_statement.
Proof.
  apply (prepare_insert_rejection_keeps_row negative_line stale_statement
           (set_type_insert stale_statement) PREPARE_NEGATIVE_ID).
  - reflexivity.
  - discriminate.
Defined.
